(** * Majordomo worker (MDPW01): the receive loop, handshake and shutdown

    A shallow embedding of the worker of [majordomo_worker]: the struct
    [mdWorker], [newWorker], [Receive], [Shutdown], [reconnectToBroker],
    [sendToBroker] and [cleanup].

    The worker talks to three collaborators that are not part of the
    package: the transport (sockets, poller, context), the clock and the
    logger.  Every call the worker makes on them is recorded, in program
    order, in a trace of [event]s; every answer they give is read from an
    [Input], one per iteration of the loop of [Receive]. *)

From Stdlib Require Import ZArith String Ascii List Bool Lia.
From stdpp Require Import base tactics option list relations.
Import ListNotations.

Local Open Scope Z_scope.

(** ** Frames, messages and the protocol constants *)

(** A frame is a [[]byte]; a message is a [[][]byte].  A nil frame and an
    empty frame are the same frame on the wire, and are both the empty string. *)
Definition frame := string.
Definition message := list frame.

Definition MD_WORKER : string := "MDPW01"%string.

Definition MD_READY : string := String "001"%char EmptyString.
Definition MD_REQUEST : string := String "002"%char EmptyString.
Definition MD_REPLY : string := String "003"%char EmptyString.
Definition MD_HEARTBEAT : string := String "004"%char EmptyString.
Definition MD_DISCONNECT : string := String "005"%char EmptyString.

(** ** Go values *)

(** Go's [int] is taken at 64 bits; arithmetic on it wraps. *)
Definition int_min : Z := - 2 ^ 63.
Definition int_max : Z := 2 ^ 63 - 1.
Definition wrap_int (z : Z) : Z := (z - int_min) mod 2 ^ 64 + int_min.

(** Run-time panics of the Go code. *)
Inductive panic : Type :=
| NilDereference
| IndexOutOfRange (index len : nat)
| SliceBoundsOutOfRange (low len : nat).

Inductive res (X : Type) : Type :=
| Ok (x : X)
| Panic (p : panic).
Arguments Ok {X} x.
Arguments Panic {X} p.

(** [m[k]] *)
Definition go_index (m : message) (k : nat) : res frame :=
  match m !! k with
  | Some f => Ok f
  | None => Panic (IndexOutOfRange k (length m))
  end.

(** [m[k:]] *)
Definition go_slice_from (m : message) (k : nat) : res message :=
  if (k <=? length m)%nat then Ok (drop k m)
  else Panic (SliceBoundsOutOfRange k (length m)).

(** ** Channels

    [chan bool], as far as the worker uses it: a blocking send and a
    receive inside a [select] with a [default] branch.  [sendq] holds the
    values of the goroutines that are blocked in a send. *)
Module Chan.

Record chan : Type := mk {
  cap : nat;
  buf : list bool;
  sendq : list bool
}.

(** [make(chan bool)] is [make 0]; [make(chan bool, n)] is [make n]. *)
Definition make (n : nat) : chan := {| cap := n; buf := []; sendq := [] |}.

Inductive send_status : Type :=
| Sent      (* the send statement completed and the sender goes on *)
| Blocked.  (* the sender is parked until a receiver takes its value *)

(** [c <- v], no receiver being parked on [c] (the worker never blocks
    in a receive). *)
Definition send (v : bool) (c : chan) : send_status * chan :=
  if (length (buf c) <? cap c)%nat
  then (Sent, {| cap := cap c; buf := buf c ++ [v]; sendq := sendq c |})
  else (Blocked, {| cap := cap c; buf := buf c; sendq := sendq c ++ [v] |}).

(** [select { case <-c: ...  default: ... }]: [None] is the default
    branch.  Taking a value releases the longest-parked sender. *)
Definition try_recv (c : chan) : option bool * chan :=
  match buf c, sendq c with
  | v :: b, [] => (Some v, {| cap := cap c; buf := b; sendq := [] |})
  | v :: b, u :: q => (Some v, {| cap := cap c; buf := b ++ [u]; sendq := q |})
  | [], u :: q => (Some u, {| cap := cap c; buf := []; sendq := q |})
  | [], [] => (None, c)
  end.

End Chan.

(** The shutdown signal as the spec words it, "a buffered single-slot
    channel": [make(chan bool, 1)]. *)
Definition single_slot : Chan.chan := Chan.make 1.

(** ** The worker's collaborators *)

(** Handles of the transport: a [*zmq4.Socket] and a [*zmq4.Context]. *)
Definition sock := nat.
Definition ctx := nat.

(** The application handler, [WorkerAction]: [Call] maps the payload
    frames of a request to the payload frames of the reply.  The handler
    may keep a state of its own. *)
Class WorkerAction (A : Type) : Type :=
  Call : A -> message -> message * A.

Inductive level : Type := Debug | Warn | Error.

(** The log lines of the package, one constructor per call site, with the
    values its format string prints. *)
Inductive log_line : Type :=
| PollingFailed (e : string)
| NotEnoughFrames (n : nat)
| ReceivedRequest (payload : message)
| ReceivedDisconnect
| ReceivedHeartbeat
| ReceivedUnknown (command : frame)
| NothingReceived (polls : Z) (delay : Z)
| AttemptingShutdown
| AttemptingConnection (address : string)
| ConnectedSuccessfully (address : string)
| SentCommand (command : string) (body : option message)
| ClosedSuccessfully.

Inductive event : Type :=
| EvClose (s : sock)                      (* socket.Close() *)
| EvNewSocket (c : ctx) (s : sock)        (* context.NewSocket(DEALER), giving s *)
| EvSetLinger (s : sock) (l : Z)          (* socket.SetLinger(l) *)
| EvConnect (s : sock) (address : string) (* socket.Connect(address) *)
| EvSend (s : sock) (m : message)         (* socket.SendMessage(m) *)
| EvPoll (s : sock) (timeout : Z)         (* poll.Add(s, POLLIN); poll.Poll(timeout) *)
| EvRecv (s : sock)                       (* socket.RecvMessageBytes(0) *)
| EvSleep (d : Z)                         (* time.Sleep(d) *)
| EvTerm (c : ctx)                        (* context.Term() *)
| EvCall (payload : message)              (* workerAction.Call(payload) *)
| EvTake (v : bool)                       (* <-w.shutdown took v; its sender resumes *)
| EvLog (l : level) (line : log_line).

(** What [poll.Poll] returns: an error, or the number of polled items. *)
Inductive poll_result : Type :=
| PollErr (e : string)
| PollOk (n : nat).

(** The answers of the environment during one iteration of the loop (or
    one call of [newWorker]). *)
Record Input : Type := {
  polled : poll_result;               (* poll.Poll(w.pollInterval) *)
  inbound : message;                  (* w.socket.RecvMessageBytes(0) *)
  send_result : message -> option string;  (* the error of SendMessage(m), if any *)
  now_connect : Z;                    (* time.Now() in reconnectToBroker *)
  now_check : Z;                      (* time.Now() in the test of the deadline *)
  now_sent : Z                        (* time.Now() after the HEARTBEAT is sent *)
}.

(** ** The worker *)

Section Worker.

Context {A : Type} `{WorkerAction A}.

(** The struct [mdWorker].  Durations and instants are integers
    (nanoseconds).  The logger is the sink of the [EvLog] events. *)
Record mdWorker : Type := mkWorker {
  shutdown : Chan.chan;
  brokerAddress : string;
  serviceName : string;
  heartbeat : Z;
  reconnect : Z;
  pollInterval : Z;
  maxLivenessCount : Z;
  liveness : Z;
  heartbeatAt : Z;
  socket : option sock;
  context : ctx;
  workerAction : A
}.

Definition set_shutdown (c : Chan.chan) (w : mdWorker) : mdWorker :=
  mkWorker c (brokerAddress w) (serviceName w) (heartbeat w) (reconnect w)
    (pollInterval w) (maxLivenessCount w) (liveness w) (heartbeatAt w)
    (socket w) (context w) (workerAction w).

Definition set_liveness (n : Z) (w : mdWorker) : mdWorker :=
  mkWorker (shutdown w) (brokerAddress w) (serviceName w) (heartbeat w)
    (reconnect w) (pollInterval w) (maxLivenessCount w) n (heartbeatAt w)
    (socket w) (context w) (workerAction w).

Definition set_heartbeatAt (t : Z) (w : mdWorker) : mdWorker :=
  mkWorker (shutdown w) (brokerAddress w) (serviceName w) (heartbeat w)
    (reconnect w) (pollInterval w) (maxLivenessCount w) (liveness w) t
    (socket w) (context w) (workerAction w).

Definition set_socket (s : option sock) (w : mdWorker) : mdWorker :=
  mkWorker (shutdown w) (brokerAddress w) (serviceName w) (heartbeat w)
    (reconnect w) (pollInterval w) (maxLivenessCount w) (liveness w)
    (heartbeatAt w) s (context w) (workerAction w).

Definition set_workerAction (a : A) (w : mdWorker) : mdWorker :=
  mkWorker (shutdown w) (brokerAddress w) (serviceName w) (heartbeat w)
    (reconnect w) (pollInterval w) (maxLivenessCount w) (liveness w)
    (heartbeatAt w) (socket w) (context w) a.

(** The state the code runs in: the worker behind the pointer [w], the
    trace of the calls made so far (oldest first), and the next socket
    handle the transport will hand out. *)
Record St : Type := mkSt {
  wk : mdWorker;
  out : list event;
  fresh : sock
}.

(** A computation reads the answers of the environment, changes the
    state, and returns or panics; the state survives a panic. *)
Definition M (X : Type) : Type := Input -> St -> res X * St.

Definition ret {X} (x : X) : M X := fun _ st => (Ok x, st).

Definition bind {X Y} (m : M X) (k : X -> M Y) : M Y :=
  fun i st =>
    match m i st with
    | (Ok x, st') => k x i st'
    | (Panic p, st') => (Panic p, st')
    end.

Definition throw {X} (p : panic) : M X := fun _ st => (Panic p, st).

Definition lift {X} (r : res X) : M X := fun _ st => (r, st).

Definition ask {X} (f : Input -> X) : M X := fun i st => (Ok (f i), st).

Definition gets {X} (f : mdWorker -> X) : M X := fun _ st => (Ok (f (wk st)), st).

Definition modify (f : mdWorker -> mdWorker) : M unit :=
  fun _ st => (Ok tt, mkSt (f (wk st)) (out st) (fresh st)).

(** A call on a collaborator goes to the end of the trace. *)
Definition record (e : event) (st : St) : St :=
  mkSt (wk st) (out st ++ [e]) (fresh st).

Definition emit (e : event) : M unit := fun _ st => (Ok tt, record e st).

(** [w.context.NewSocket(zmq4.DEALER)]: a socket that did not exist. *)
Definition NewSocket : M sock :=
  fun _ st =>
    (Ok (fresh st),
     mkSt (wk st) (out st ++ [EvNewSocket (context (wk st)) (fresh st)])
       (S (fresh st))).

End Worker.

Arguments mdWorker A : clear implicits.
Arguments St A : clear implicits.
Arguments M A X : clear implicits.

Declare Scope worker_scope.
Delimit Scope worker_scope with worker.
Notation "x <- m ;; k" := (bind m (fun x => k))
  (at level 100, m at next level, right associativity) : worker_scope.
Notation "m ;;; k" := (bind m (fun _ => k))
  (at level 100, right associativity) : worker_scope.

Local Open Scope worker_scope.

(** The named results [msg] and [err] of [Receive], which live across the
    iterations of its loop. *)
Record locals : Type := mkLocals {
  msg : message;
  err : option string
}.

(** How one iteration of the loop ends: [continue] (or the end of the
    body), or a [return]. *)
Inductive step : Type :=
| Continue (l : locals)
| Return (m : message) (e : option string).

(** How a call of [Receive] stands after the answers it was given. *)
Inductive outcome : Type :=
| Returned (m : message) (e : option string)
| Panicked (p : panic)
| Running (l : locals).

(** One move of the program as a whole: the goroutine inside [Receive]
    runs one iteration of its loop, or another goroutine calls
    [Shutdown]. *)
Inductive tick : Type :=
| Tick (i : Input)
| Signal.

Section Code.

Context {A : Type} `{WorkerAction A}.

(** Modelled from the spec: the helpers [logDebug], [logWarn] and
    [logError] hand a line to the logger, "a pluggable sink used for
    diagnostics; no semantic role". *)
Definition logDebug (line : log_line) : M A unit := emit (EvLog Debug line).
Definition logWarn (line : log_line) : M A unit := emit (EvLog Warn line).
Definition logError (line : log_line) : M A unit := emit (EvLog Error line).

(** A method call on [w.socket] dereferences the pointer. *)
Definition the_socket : M A sock :=
  so <- gets socket ;;
  match so with
  | Some s => ret s
  | None => throw NilDereference
  end.

(** [w.socket.SendMessage(m)] *)
Definition SendMessage (m : message) : M A (option string) :=
  s <- the_socket ;;
  emit (EvSend s m) ;;;
  ask (fun i => send_result i m).

(** The [workerMessage] that [sendToBroker] builds; [None] is a nil
    slice. *)
Definition workerMessage (command : string) (name : option frame)
    (body : option message) : message :=
  let m := [EmptyString; MD_WORKER; command] in
  let m :=
    match name with
    | Some n => m ++ [n]
    | None => m
    end in
  match body with
  | Some b => m ++ b
  | None => m
  end.

(** [sendToBroker(command, serviceName, msg)] *)
Definition sendToBroker (command : string) (name : option frame)
    (body : option message) : M A (option string) :=
  e <- SendMessage (workerMessage command name body) ;;
  logDebug (SentCommand command body) ;;;
  ret e.

(** [reconnectToBroker()].  The socket the context hands out is a new
    one; the errors of [NewSocket], [SetLinger], [Connect] and
    [sendToBroker] are dropped, and the result is always nil. *)
Definition reconnectToBroker : M A (option string) :=
  so <- gets socket ;;
  match so with
  | Some s => emit (EvClose s)
  | None => ret tt
  end ;;;
  address <- gets brokerAddress ;;
  logDebug (AttemptingConnection address) ;;;
  s <- NewSocket ;;
  modify (set_socket (Some s)) ;;;
  emit (EvSetLinger s 0) ;;;
  emit (EvConnect s address) ;;;
  logDebug (ConnectedSuccessfully address) ;;;
  name <- gets serviceName ;;
  _ <- sendToBroker MD_READY (Some name) None ;;
  maxLiveness <- gets maxLivenessCount ;;
  modify (set_liveness maxLiveness) ;;;
  now <- ask now_connect ;;
  hb <- gets heartbeat ;;
  modify (set_heartbeatAt (now + hb)) ;;;
  ret None.

(** [cleanup()] *)
Definition cleanup : M A unit :=
  so <- gets socket ;;
  match so with
  | Some s => emit (EvClose s)
  | None => ret tt
  end ;;;
  c <- gets context ;;
  emit (EvTerm c) ;;;
  logDebug ClosedSuccessfully.

(** The end of the loop body (lines 107-110): the heartbeat that is due. *)
Definition heartbeat_due : M A unit :=
  deadline <- gets heartbeatAt ;;
  now <- ask now_check ;;
  if deadline <? now then
    _ <- sendToBroker MD_HEARTBEAT None None ;;
    now' <- ask now_sent ;;
    hb <- gets heartbeat ;;
    modify (set_heartbeatAt (now' + hb))
  else ret tt.

(** [w.workerAction.Call(payload)] *)
Definition call_action (payload : message) : M A message :=
  a <- gets workerAction ;;
  emit (EvCall payload) ;;;
  let (response, a') := Call a payload in
  modify (set_workerAction a') ;;;
  ret response.

(** The [switch] on the command frame of a message of at least three
    frames.  [None] falls out of the switch, [Some] is the [return] of
    the [MD_REQUEST] case. *)
Definition dispatch (m : message) : M A (option message) :=
  command <- lift (go_index m 2) ;;
  if String.eqb command MD_REQUEST then
    payload <- lift (go_slice_from m 5) ;;
    logDebug (ReceivedRequest payload) ;;;
    replyTo <- lift (go_index m 3) ;;
    payload <- lift (go_slice_from m 5) ;;
    actionResponse <- call_action payload ;;
    let reply := [EmptyString] ++ actionResponse in
    _ <- sendToBroker MD_REPLY (Some replyTo) (Some reply) ;;
    ret (Some actionResponse)
  else if String.eqb command MD_DISCONNECT then
    logDebug ReceivedDisconnect ;;;
    _ <- reconnectToBroker ;;
    ret None
  else if String.eqb command MD_HEARTBEAT then
    logDebug ReceivedHeartbeat ;;;
    ret None
  else
    unknown <- lift (go_index m 2) ;;
    logDebug (ReceivedUnknown unknown) ;;;
    ret None.

(** The [else if w.liveness--; w.liveness <= 0] branch. *)
Definition silent_poll : M A unit :=
  n <- gets liveness ;;
  modify (set_liveness (wrap_int (n - 1))) ;;;
  n <- gets liveness ;;
  if n <=? 0 then
    maxLiveness <- gets maxLivenessCount ;;
    delay <- gets reconnect ;;
    logWarn (NothingReceived maxLiveness delay) ;;;
    emit (EvSleep delay) ;;;
    _ <- reconnectToBroker ;;
    ret tt
  else ret tt.

(** What the loop body does with a message it received (lines 71-100),
    and then with the heartbeat that is due.  The poll succeeded, so
    [err] is nil here, and the bare [return] of the [MD_REQUEST] case
    returns it as such. *)
Definition received (m : message) : M A step :=
  if (length m <? 3)%nat then
    logError (NotEnoughFrames (length m)) ;;;
    ret (Continue (mkLocals m None))
  else
    maxLiveness <- gets maxLivenessCount ;;
    modify (set_liveness maxLiveness) ;;;
    r <- dispatch m ;;
    match r with
    | Some actionResponse => ret (Return actionResponse None)
    | None =>
        heartbeat_due ;;;
        ret (Continue (mkLocals m None))
    end.

(** The [default] branch of the [select]. *)
Definition poll_and_dispatch (l : locals) : M A step :=
  s <- the_socket ;;
  timeout <- gets pollInterval ;;
  emit (EvPoll s timeout) ;;;
  p <- ask polled ;;
  match p with
  | PollErr e =>
      logError (PollingFailed e) ;;;
      ret (Continue (mkLocals (msg l) (Some e)))
  | PollOk n =>
      if (0 <? n)%nat then
        s <- the_socket ;;
        emit (EvRecv s) ;;;
        m <- ask inbound ;;
        received m
      else
        silent_poll ;;;
        heartbeat_due ;;;
        ret (Continue (mkLocals (msg l) None))
  end.

(** One iteration of the loop of [Receive]: the [select]. *)
Definition iteration (l : locals) : M A step :=
  c <- gets shutdown ;;
  match Chan.try_recv c with
  | (Some v, c') =>
      modify (set_shutdown c') ;;;
      emit (EvTake v) ;;;
      cleanup ;;;
      ret (Return (msg l) (Some "Graceful shutdown"%string))
  | (None, _) => poll_and_dispatch l
  end.

(** [Shutdown()], called from another goroutine: the status tells
    whether the call has returned or is blocked in its send. *)
Definition Shutdown (st : St A) : Chan.send_status * St A :=
  let st := record (EvLog Debug AttemptingShutdown) st in
  let (status, c) := Chan.send true (shutdown (wk st)) in
  (status, mkSt (set_shutdown c (wk st)) (out st) (fresh st)).

(** The loop of [Receive], run against the moves of a script. *)
Fixpoint Receive_loop (script : list tick) (l : locals) (st : St A)
    : outcome * St A :=
  match script with
  | [] => (Running l, st)
  | Signal :: script' => Receive_loop script' l (snd (Shutdown st))
  | Tick i :: script' =>
      match iteration l i st with
      | (Ok (Continue l'), st') => Receive_loop script' l' st'
      | (Ok (Return m e), st') => (Returned m e, st')
      | (Panic p, st') => (Panicked p, st')
      end
  end.

(** [Receive()]: [msg] and [err] start out nil. *)
Definition Receive (script : list tick) (st : St A) : outcome * St A :=
  Receive_loop script (mkLocals [] None) st.

(** [newWorker(...)]: the struct literal, then the first handshake.
    [s0] is the socket handle the transport hands out first. *)
Definition newWorker (c : ctx) (address name : string)
    (heartbeatInMillis reconnectInMillis poll : Z) (maxLiveness : Z)
    (action : A) (i : Input) (s0 : sock) : St A :=
  let w := mkWorker (Chan.make 0) address name heartbeatInMillis
             reconnectInMillis poll maxLiveness 0 0 None c action in
  snd (reconnectToBroker i (mkSt w [] s0)).

End Code.

(** ** Reading a trace *)

(** The message [sendToBroker(MD_READY, serviceName, nil)] puts on the wire. *)
Definition ready (name : string) : message :=
  [EmptyString; MD_WORKER; MD_READY; name].

(** The HEARTBEAT message. *)
Definition beat : message := [EmptyString; MD_WORKER; MD_HEARTBEAT].

(** The REPLY message for a client and the output of the handler. *)
Definition reply_to (client : frame) (output : message) : message :=
  [EmptyString; MD_WORKER; MD_REPLY; client; EmptyString] ++ output.

(** What [reconnectToBroker] and [cleanup] do with the socket they find. *)
Definition closing (so : option sock) : list event :=
  match so with
  | Some s => [EvClose s]
  | None => []
  end.

(** The calls of one handshake on the new socket [s]. *)
Definition handshake (c : ctx) (address name : string) (s : sock) : list event :=
  [ EvLog Debug (AttemptingConnection address);
    EvNewSocket c s;
    EvSetLinger s 0;
    EvConnect s address;
    EvLog Debug (ConnectedSuccessfully address);
    EvSend s (ready name);
    EvLog Debug (SentCommand MD_READY None) ].

(** The calls of one outbound HEARTBEAT on socket [s]. *)
Definition heartbeat_sent (s : sock) : list event :=
  [ EvSend s beat; EvLog Debug (SentCommand MD_HEARTBEAT None) ].

Definition command_of (m : message) : option frame := m !! 2%nat.

Definition is_send (e : event) : bool :=
  match e with EvSend _ _ => true | _ => false end.

Definition sends (command : string) (e : event) : bool :=
  match e with
  | EvSend _ m =>
      match command_of m with
      | Some c => String.eqb c command
      | None => false
      end
  | _ => false
  end.

Definition is_sleep (e : event) : bool :=
  match e with EvSleep _ => true | _ => false end.

Definition is_close (e : event) : bool :=
  match e with EvClose _ => true | _ => false end.

Definition is_open (e : event) : bool :=
  match e with EvNewSocket _ _ => true | _ => false end.

Definition is_connected (e : event) : bool :=
  match e with EvLog Debug (ConnectedSuccessfully _) => true | _ => false end.

Definition is_poll (e : event) : bool :=
  match e with EvPoll _ _ => true | _ => false end.

Definition is_call (e : event) : bool :=
  match e with EvCall _ => true | _ => false end.

Definition is_term (e : event) : bool :=
  match e with EvTerm _ => true | _ => false end.

Definition is_error_log (e : event) : bool :=
  match e with EvLog Error _ => true | _ => false end.

(** A log line above the debug level. *)
Definition reports (e : event) : bool :=
  match e with
  | EvLog Debug _ => false
  | EvLog _ _ => true
  | _ => false
  end.

(** How many events of a trace satisfy [p]. *)
Definition count (p : event -> bool) (tr : list event) : nat :=
  length (List.filter p tr).

(** An event that belongs to a reconnect: a sleep, a close, a new socket
    or a READY. *)
Definition reconnects (e : event) : bool :=
  is_sleep e || is_close e || is_open e || sends MD_READY e.

(** The messages sent on socket [s], in order. *)
Fixpoint sends_on (s : sock) (tr : list event) : list message :=
  match tr with
  | [] => []
  | EvSend s' m :: tr' =>
      if Nat.eqb s' s then m :: sends_on s tr' else sends_on s tr'
  | _ :: tr' => sends_on s tr'
  end.

(** The sockets opened in a trace, in order. *)
Fixpoint opened (tr : list event) : list sock :=
  match tr with
  | [] => []
  | EvNewSocket _ s :: tr' => s :: opened tr'
  | _ :: tr' => opened tr'
  end.

(** Every socket is opened by a complete handshake: what follows
    [NewSocket] in the trace is linger, connect and READY. *)
Fixpoint handshakes (address name : string) (tr : list event) : Prop :=
  match tr with
  | [] => True
  | EvNewSocket c s :: tr' =>
      (exists rest,
         tr' = [ EvSetLinger s 0; EvConnect s address;
                 EvLog Debug (ConnectedSuccessfully address);
                 EvSend s (ready name) ] ++ rest)
      /\ handshakes address name tr'
  | _ :: tr' => handshakes address name tr'
  end.

(** ** A concrete worker, for examples *)

(** The handler that echoes its input. *)
#[export] Instance echo : WorkerAction unit := fun a m => (m, a).

(** An environment in which nothing happens: the poll times out, every
    send succeeds, the clock stands at 0. *)
Definition idle : Input := Build_Input (PollOk 0) [] (fun _ => None) 0 0 0.

(** The same, when the poll finds the message [m]. *)
Definition delivering (m : message) : Input :=
  Build_Input (PollOk 1) m (fun _ => None) 0 0 0.

Definition worker0 : St unit :=
  newWorker 7%nat "tcp://localhost:5555" "echo" 2500 2500 500 3 tt idle 0%nat.

(** An environment in which the poll times out and the clock reads
    3000, past the first deadline of [worker0]. *)
Definition late : Input :=
  Build_Input (PollOk 0) [] (fun _ => None) 3000 3000 3100.

(** An environment in which the poll times out and the clock reads
    2500, the first deadline of [worker0] to the nanosecond. *)
Definition on_time : Input :=
  Build_Input (PollOk 0) [] (fun _ => None) 2500 2500 2600.

(** The same, when every send fails. *)
Definition failing : Input :=
  Build_Input (PollOk 0) []
    (fun _ => Some "resource temporarily unavailable"%string) 3000 3000 3100.

(** An environment in which the poll fails. *)
Definition broken : Input :=
  Build_Input (PollErr "interrupted system call") [] (fun _ => None) 0 0 0.

(** Scenario S1 of the spec: a REQUEST of six frames. *)
Definition hello : message :=
  [EmptyString; "MDPW01"; MD_REQUEST; "CID-1"; EmptyString; "hello"]%string.

(** A REQUEST that stops after its command frame. *)
Definition bare_request : message := [EmptyString; MD_WORKER; MD_REQUEST].

(** A REQUEST with a client identity and nothing else. *)
Definition short_request : message :=
  [EmptyString; "MDPW01"; MD_REQUEST; "CID-1"]%string.


(** ** The states the operations lead to *)

Section Shapes.

Context {A : Type} `{WorkerAction A}.

(** The state [reconnectToBroker] leaves behind. *)
Definition reconnected (i : Input) (st : St A) : St A :=
  mkSt
    (set_heartbeatAt (now_connect i + heartbeat (wk st))
       (set_liveness (maxLivenessCount (wk st))
          (set_socket (Some (fresh st)) (wk st))))
    (out st ++ closing (socket (wk st))
       ++ handshake (context (wk st)) (brokerAddress (wk st))
            (serviceName (wk st)) (fresh st))
    (S (fresh st)).

(** The state after the events [es] went to the trace. *)
Definition extended (es : list event) (st : St A) : St A :=
  mkSt (wk st) (out st ++ es) (fresh st).

(** The state the end of the loop body leaves behind when the
    heartbeat is due, on socket [s]. *)
Definition beaten (i : Input) (s : sock) (st : St A) : St A :=
  mkSt (set_heartbeatAt (now_sent i + heartbeat (wk st)) (wk st))
    (out st ++ heartbeat_sent s) (fresh st).

(** No goroutine has a shutdown signal pending on the worker's channel. *)
Definition unsignalled (st : St A) : Prop :=
  Chan.buf (shutdown (wk st)) = [] /\ Chan.sendq (shutdown (wk st)) = [].

(** The events an operation added to the trace of [st], given the
    state [st'] it led to. *)
Definition added (st st' : St A) : list event :=
  drop (length (out st)) (out st').

(** The state in which the switch on the command of a received message
    starts: the poll and the receive are in the trace, the liveness
    is reset. *)
Definition at_dispatch (s : sock) (st : St A) : St A :=
  mkSt (set_liveness (maxLivenessCount (wk st)) (wk st))
    (out st ++ [EvPoll s (pollInterval (wk st)); EvRecv s]) (fresh st).

(** An event that is no send, no new socket and no report of a
    connection. *)
Definition harmless (e : event) : bool :=
  negb (is_send e || is_open e || is_connected e).

(** The moves the worker makes: every operation is a sequence of
    these. *)
Inductive atom : St A -> St A -> Prop :=
| atom_note e st :
    harmless e = true -> atom st (extended [e] st)
| atom_liveness n st :
    atom st (mkSt (set_liveness n (wk st)) (out st) (fresh st))
| atom_action a st :
    atom st (mkSt (set_workerAction a (wk st)) (out st) (fresh st))
| atom_shutdown c st :
    atom st (mkSt (set_shutdown c (wk st)) (out st) (fresh st))
| atom_send s command name body st :
    socket (wk st) = Some s ->
    command <> MD_READY ->
    command <> MD_HEARTBEAT ->
    atom st (extended [EvSend s (workerMessage command name body)] st)
| atom_beat i s st :
    socket (wk st) = Some s -> atom st (beaten i s st)
| atom_reconnect i st :
    atom st (reconnected i st).

(** An operation only makes such moves. *)
Definition walks {X} (c : M A X) : Prop :=
  forall i st, rtc atom st (snd (c i st)).

(** The same answers of the environment, but for the results [f] of
    the sends. *)
Definition with_sends (f : message -> option string) (i : Input) : Input :=
  Build_Input (polled i) (inbound i) f (now_connect i) (now_check i)
    (now_sent i).

(** An operation that does not look at the results of the sends. *)
Definition blind {X} (c : M A X) : Prop :=
  forall f i st, c (with_sends f i) st = c i st.

(** An operation in which the results of the sends show at most in
    the value it returns. *)
Definition blind_but_value {X} (c : M A X) : Prop :=
  forall f i st,
    snd (c (with_sends f i) st) = snd (c i st)
    /\ match fst (c (with_sends f i) st), fst (c i st) with
       | Ok _, Ok _ => True
       | Panic p, Panic q => p = q
       | _, _ => False
       end.

(** The deadline of the heartbeat moved between [st] and [st'] only
    if a READY or a HEARTBEAT was sent in between. *)
Definition deadline_kept (st st' : St A) : Prop :=
  exists es,
    out st' = out st ++ es
    /\ (heartbeatAt (wk st') = heartbeatAt (wk st)
        \/ (1 <= count (sends MD_READY) es + count (sends MD_HEARTBEAT) es)%nat).

(** What holds of the trace and the worker at any time, for a worker
    built with the first socket [s0], the address and the name. *)
Definition sound (s0 : sock) (address name : string) (st : St A) : Prop :=
  brokerAddress (wk st) = address
  /\ serviceName (wk st) = name
  /\ (s0 <= fresh st)%nat
  /\ opened (out st) = seq s0 (fresh st - s0)
  /\ (forall s, socket (wk st) = Some s -> (s0 <= s < fresh st)%nat)
  /\ (forall s, (s0 <= s < fresh st)%nat ->
        exists rest,
          sends_on s (out st) = ready name :: rest
          /\ Forall (fun m => command_of m <> Some MD_READY) rest)
  /\ (forall s, ~ (s0 <= s < fresh st)%nat -> sends_on s (out st) = [])
  /\ handshakes address name (out st)
  /\ count (sends MD_READY) (out st) = count is_open (out st)
  /\ count is_connected (out st) = count is_open (out st).

(** The heartbeat as the spec words it, for one iteration: when the
    deadline is reached, the iteration sends one HEARTBEAT and the
    deadline advances by the heartbeat interval. *)
Definition heartbeat_on_deadline (l : locals) (i : Input) (st : St A) : Prop :=
  heartbeatAt (wk st) <= now_check i ->
  count (sends MD_HEARTBEAT) (added st (snd (iteration l i st))) = 1%nat
  /\ heartbeatAt (wk (snd (iteration l i st)))
       = heartbeatAt (wk st) + heartbeat (wk st).

(** The call of [Shutdown] returns at once: its send completes without
    a receiver. *)
Definition returns_at_once (st : St A) : Prop :=
  fst (Shutdown st) = Chan.Sent.

(** The configuration of a worker, which no operation changes. *)
Definition config (w : mdWorker A) : string * string * Z * Z * Z * Z * ctx :=
  (brokerAddress w, serviceName w, heartbeat w, reconnect w,
   pollInterval w, maxLivenessCount w, context w).

(** An iteration serves the REQUEST it receives: the handler gets
    frames 5 and up, the REPLY carries frame 3 of the REQUEST, an
    empty frame and the output of the handler, and [Receive] returns
    that output and a nil error. *)
Definition request_served (l : locals) (i : Input) (st : St A) : Prop :=
  let payload := drop 5 (inbound i) in
  let output := fst (Call (workerAction (wk st)) payload) in
  exists s reply st',
    (forall rest,
       Receive_loop (Tick i :: rest) l st = (Returned output None, st'))
    /\ out st' =
         out st ++
         [ EvPoll s (pollInterval (wk st)); EvRecv s;
           EvLog Debug (ReceivedRequest payload);
           EvCall payload;
           EvSend s reply;
           EvLog Debug (SentCommand MD_REPLY (Some (EmptyString :: output))) ]
    /\ command_of reply = Some MD_REPLY
    /\ reply !! 3%nat = inbound i !! 3%nat
    /\ reply !! 4%nat = Some EmptyString
    /\ drop 5 reply = output.

(** The same script, but for the results [f] of the sends. *)
Definition script_with_sends (f : message -> option string)
    (script : list tick) : list tick :=
  map (fun t => match t with
                | Tick i => Tick (with_sends f i)
                | Signal => Signal
                end) script.

(** A failed send of the iteration shows in the log above the debug
    level. *)
Definition send_failure_logged (l : locals) (i : Input) (st : St A) : Prop :=
  forall s m e,
    In (EvSend s m) (added st (snd (iteration l i st))) ->
    send_result i m = Some e ->
    (1 <= count reports (added st (snd (iteration l i st))))%nat.

(** How a call of [Receive] that went from [st] to [st'] may return
    [m] and [e]: after a shutdown, or with the output of the handler
    and a nil error, once the REPLY has been sent. *)
Definition returned_well (st st' : St A) (m : message) (e : option string)
    : Prop :=
  (e = Some "Graceful shutdown"%string
   /\ exists before v so c,
        out st' =
          out st ++ before ++ [EvTake v] ++ closing so
            ++ [EvTerm c; EvLog Debug ClosedSuccessfully])
  \/ (e = None
      /\ exists before s client payload,
           out st' =
             out st ++ before
             ++ [ EvCall payload; EvSend s (reply_to client m);
                  EvLog Debug (SentCommand MD_REPLY (Some (EmptyString :: m))) ]).

(** The calls a program makes on its worker. *)
Inductive call : Type :=
| CallReceive (script : list tick)
| CallShutdown.

Fixpoint run (calls : list call) (st : St A) : St A :=
  match calls with
  | [] => st
  | CallReceive script :: calls' => run calls' (snd (Receive script st))
  | CallShutdown :: calls' => run calls' (snd (Shutdown st))
  end.

End Shapes.

(** * Properties *)

(** Unfolding the combinators of [M]. *)
Ltac unfold_M :=
  unfold logDebug, logWarn, logError;
  unfold bind, ret, throw, lift, ask, gets, modify, emit;
  unfold record, extended; simpl.

Ltac tidy := repeat rewrite <- app_assoc; simpl.

Section Facts.

Context {A : Type} `{WorkerAction A}.

Implicit Types (st : St A) (i : Input) (l : locals) (s : sock) (m : message).

(** *** The operations, one by one *)

Lemma sendToBroker_on s command name body i st :
  socket (wk st) = Some s ->
  sendToBroker command name body i st =
    (Ok (send_result i (workerMessage command name body)),
     extended [ EvSend s (workerMessage command name body);
                EvLog Debug (SentCommand command body) ] st).
Proof.
  intros Hs. unfold sendToBroker, SendMessage, the_socket. unfold_M.
  rewrite Hs. simpl. tidy. reflexivity.
Qed.

Lemma sendToBroker_nil command name body i st :
  socket (wk st) = None ->
  sendToBroker command name body i st = (Panic NilDereference, st).
Proof.
  intros Hs. unfold sendToBroker, SendMessage, the_socket. unfold_M.
  rewrite Hs. reflexivity.
Qed.

Lemma reconnectToBroker_eq i st :
  reconnectToBroker i st = (Ok None, reconnected i st).
Proof.
  unfold reconnectToBroker, reconnected, NewSocket, sendToBroker,
    SendMessage, the_socket. unfold_M.
  destruct (socket (wk st)); simpl; tidy; reflexivity.
Qed.

Lemma heartbeat_due_late s i st :
  socket (wk st) = Some s ->
  heartbeatAt (wk st) < now_check i ->
  heartbeat_due i st = (Ok tt, beaten i s st).
Proof.
  intros Hs Hlt. unfold heartbeat_due. unfold_M.
  apply Z.ltb_lt in Hlt. rewrite Hlt.
  rewrite (sendToBroker_on s) by assumption. reflexivity.
Qed.

Lemma heartbeat_due_early i st :
  now_check i <= heartbeatAt (wk st) ->
  heartbeat_due i st = (Ok tt, st).
Proof.
  intros Hle. unfold heartbeat_due. unfold_M.
  apply Z.ltb_ge in Hle. rewrite Hle. reflexivity.
Qed.

Lemma cleanup_eq i st :
  cleanup i st =
    (Ok tt,
     extended (closing (socket (wk st))
               ++ [EvTerm (context (wk st)); EvLog Debug ClosedSuccessfully]) st).
Proof.
  unfold cleanup. unfold_M. destruct (socket (wk st)); simpl; tidy; reflexivity.
Qed.

Lemma try_recv_unsignalled st :
  unsignalled st -> Chan.try_recv (shutdown (wk st)) = (None, shutdown (wk st)).
Proof.
  intros [Hb Hq]. unfold Chan.try_recv. rewrite Hb, Hq. reflexivity.
Qed.

Lemma iteration_unsignalled l i st :
  unsignalled st -> iteration l i st = poll_and_dispatch l i st.
Proof.
  intros Hu. unfold iteration. unfold_M.
  rewrite (try_recv_unsignalled st Hu). reflexivity.
Qed.

Lemma poll_and_dispatch_message l i st s n :
  socket (wk st) = Some s ->
  polled i = PollOk (S n) ->
  poll_and_dispatch l i st =
    received (inbound i) i
      (extended [EvPoll s (pollInterval (wk st)); EvRecv s] st).
Proof.
  intros Hs Hp. unfold poll_and_dispatch, the_socket. unfold_M.
  rewrite Hs. simpl. rewrite Hp. simpl. rewrite Hs. simpl. tidy. reflexivity.
Qed.

Lemma poll_and_dispatch_silent l i st s :
  socket (wk st) = Some s ->
  polled i = PollOk 0 ->
  poll_and_dispatch l i st =
    (silent_poll ;;; heartbeat_due ;;; ret (Continue (mkLocals (msg l) None))) i
      (extended [EvPoll s (pollInterval (wk st))] st).
Proof.
  intros Hs Hp. unfold poll_and_dispatch, the_socket. unfold_M.
  rewrite Hs. simpl. rewrite Hp. simpl. reflexivity.
Qed.

Lemma poll_and_dispatch_error l i st s e :
  socket (wk st) = Some s ->
  polled i = PollErr e ->
  poll_and_dispatch l i st =
    (Ok (Continue (mkLocals (msg l) (Some e))),
     extended [EvPoll s (pollInterval (wk st)); EvLog Error (PollingFailed e)] st).
Proof.
  intros Hs Hp. unfold poll_and_dispatch, the_socket. unfold_M.
  rewrite Hs. simpl. rewrite Hp. simpl. tidy. reflexivity.
Qed.

Lemma go_index_eq m k f : m !! k = Some f -> go_index m k = Ok f.
Proof. intros E. unfold go_index. rewrite E. reflexivity. Qed.

Lemma go_slice_from_le m k :
  (k <= length m)%nat -> go_slice_from m k = Ok (drop k m).
Proof.
  intros E. unfold go_slice_from. apply Nat.leb_le in E. rewrite E. reflexivity.
Qed.

Lemma go_slice_from_gt m k :
  (length m < k)%nat -> go_slice_from m k = Panic (SliceBoundsOutOfRange k (length m)).
Proof.
  intros E. unfold go_slice_from. apply Nat.leb_gt in E. rewrite E. reflexivity.
Qed.

(** The state the [MD_REQUEST] case leaves behind. *)
Lemma dispatch_request m i st s client :
  socket (wk st) = Some s ->
  command_of m = Some MD_REQUEST ->
  (5 <= length m)%nat ->
  m !! 3%nat = Some client ->
  dispatch m i st =
    (Ok (Some (fst (Call (workerAction (wk st)) (drop 5 m)))),
     mkSt (set_workerAction (snd (Call (workerAction (wk st)) (drop 5 m))) (wk st))
       (out st ++
          [ EvLog Debug (ReceivedRequest (drop 5 m));
            EvCall (drop 5 m);
            EvSend s (reply_to client (fst (Call (workerAction (wk st)) (drop 5 m))));
            EvLog Debug (SentCommand MD_REPLY
              (Some (EmptyString :: fst (Call (workerAction (wk st)) (drop 5 m))))) ])
       (fresh st)).
Proof.
  intros Hs Hc Hlen H3. unfold dispatch, call_action. unfold_M.
  rewrite (go_index_eq _ _ _ Hc). simpl.
  rewrite (go_slice_from_le _ _ Hlen). simpl.
  rewrite (go_index_eq _ _ _ H3). simpl.
  destruct (Call (workerAction (wk st)) (drop 5 m)) as [output a'] eqn:E. simpl.
  rewrite (sendToBroker_on s) by exact Hs. simpl. unfold_M. tidy. reflexivity.
Qed.

Lemma dispatch_request_short m i st :
  command_of m = Some MD_REQUEST ->
  (length m < 5)%nat ->
  dispatch m i st = (Panic (SliceBoundsOutOfRange 5 (length m)), st).
Proof.
  intros Hc Hlen. unfold dispatch. unfold_M.
  rewrite (go_index_eq _ _ _ Hc). simpl.
  rewrite (go_slice_from_gt _ _ Hlen). reflexivity.
Qed.

End Facts.

Section Requests.

Context {A : Type} `{WorkerAction A}.

Implicit Types (st : St A) (i : Input) (l : locals) (s : sock) (m : message).

Lemma received_long m i st :
  (3 <= length m)%nat ->
  received m i st =
    match dispatch m i (mkSt (set_liveness (maxLivenessCount (wk st)) (wk st))
                          (out st) (fresh st)) with
    | (Ok (Some output), st') => (Ok (Return output None), st')
    | (Ok None, st') =>
        match heartbeat_due i st' with
        | (Ok _, st'') => (Ok (Continue (mkLocals m None)), st'')
        | (Panic p, st'') => (Panic p, st'')
        end
    | (Panic p, st') => (Panic p, st')
    end.
Proof.
  intros Hlen. unfold received.
  apply Nat.ltb_ge in Hlen. rewrite Hlen. unfold_M.
  destruct (dispatch m i _) as [[[output|]|p] st']; reflexivity.
Qed.

Lemma received_short m i st :
  (length m < 3)%nat ->
  received m i st =
    (Ok (Continue (mkLocals m None)),
     extended [EvLog Error (NotEnoughFrames (length m))] st).
Proof.
  intros Hlen. unfold received.
  apply Nat.ltb_lt in Hlen. rewrite Hlen. unfold_M. reflexivity.
Qed.

(** An iteration that finds a message goes to the switch with the
    liveness reset. *)
Lemma iteration_message l i st s n :
  unsignalled st ->
  socket (wk st) = Some s ->
  polled i = PollOk (S n) ->
  (3 <= length (inbound i))%nat ->
  iteration l i st =
    match dispatch (inbound i) i (at_dispatch s st) with
    | (Ok (Some output), st') => (Ok (Return output None), st')
    | (Ok None, st') =>
        match heartbeat_due i st' with
        | (Ok _, st'') => (Ok (Continue (mkLocals (inbound i) None)), st'')
        | (Panic p, st'') => (Panic p, st'')
        end
    | (Panic p, st') => (Panic p, st')
    end.
Proof.
  intros Hu Hs Hp Hlen.
  rewrite iteration_unsignalled by assumption.
  rewrite (poll_and_dispatch_message l i st s n) by assumption.
  rewrite received_long by assumption. reflexivity.
Qed.

Lemma lookup_is_Some_lt m k : (k < length m)%nat -> exists f, m !! k = Some f.
Proof. intros Hlt. apply lookup_lt_is_Some_2 in Hlt. destruct Hlt; eauto. Qed.

(** C1, as amended: for every inbound message of at least 5 frames whose
    command frame (frame 2) is REQUEST, [Receive] passes frames 5 and up
    to the handler, sends a REPLY whose frame 3 is frame 3 of the
    REQUEST, whose frame 4 is empty and whose frames 5 and up are the
    output of the handler, and returns that output with a nil error. *)
Theorem request_is_served l i st s n :
  unsignalled st ->
  socket (wk st) = Some s ->
  polled i = PollOk (S n) ->
  (5 <= length (inbound i))%nat ->
  command_of (inbound i) = Some MD_REQUEST ->
  request_served l i st.
Proof.
  intros Hu Hs Hp Hlen Hc.
  destruct (lookup_is_Some_lt (inbound i) 3) as [client H3]; [lia|].
  assert (3 <= length (inbound i))%nat as H3' by lia.
  pose proof (iteration_message l i st s n Hu Hs Hp H3') as Hit.
  rewrite (dispatch_request _ _ _ s client) in Hit by (assumption || lia).
  unfold request_served.
  exists s, (reply_to client (fst (Call (workerAction (wk st)) (drop 5 (inbound i))))).
  eexists. split; [|split; [|split; [|split; [|split]]]].
  - intros rest. simpl. rewrite Hit. reflexivity.
  - simpl. tidy. reflexivity.
  - reflexivity.
  - simpl. symmetry. exact H3.
  - reflexivity.
  - reflexivity.
Qed.

End Requests.

(** C1, as the spec states it, fails on a REQUEST of three frames: the
    message passes the check of the frame count, and the loop panics on
    [msg[5:]] before the handler is called. *)
Lemma bare_request_not_served :
  unsignalled worker0
  /\ socket (wk worker0) = Some 0%nat
  /\ polled (delivering bare_request) = PollOk 1
  /\ (3 <= length (inbound (delivering bare_request)))%nat
  /\ command_of (inbound (delivering bare_request)) = Some MD_REQUEST
  /\ ~ request_served (mkLocals [] None) (delivering bare_request) worker0.
Proof.
  split; [split; reflexivity|].
  split; [reflexivity|]. split; [reflexivity|].
  split; [simpl; lia|]. split; [reflexivity|].
  intros (s & reply & st' & Hrun & _).
  specialize (Hrun []). vm_compute in Hrun. discriminate Hrun.
Qed.

Lemma request_is_served_witness :
  request_served (mkLocals [] None) (delivering hello) worker0.
Proof.
  apply (request_is_served _ _ _ 0%nat 0%nat).
  - split; reflexivity.
  - reflexivity.
  - reflexivity.
  - simpl. lia.
  - reflexivity.
Defined.

Section Dispatch.

Context {A : Type} `{WorkerAction A}.

Implicit Types (st : St A) (i : Input) (l : locals) (s : sock) (m : message).

Lemma dispatch_disconnect m i st :
  command_of m = Some MD_DISCONNECT ->
  dispatch m i st =
    (Ok None, reconnected i (extended [EvLog Debug ReceivedDisconnect] st)).
Proof.
  intros Hc. unfold dispatch. unfold_M.
  rewrite (go_index_eq _ _ _ Hc). simpl.
  rewrite reconnectToBroker_eq. reflexivity.
Qed.

Lemma dispatch_heartbeat m i st :
  command_of m = Some MD_HEARTBEAT ->
  dispatch m i st = (Ok None, extended [EvLog Debug ReceivedHeartbeat] st).
Proof.
  intros Hc. unfold dispatch. unfold_M.
  rewrite (go_index_eq _ _ _ Hc). reflexivity.
Qed.

Lemma dispatch_unknown m i st c :
  command_of m = Some c ->
  c <> MD_REQUEST -> c <> MD_DISCONNECT -> c <> MD_HEARTBEAT ->
  dispatch m i st = (Ok None, extended [EvLog Debug (ReceivedUnknown c)] st).
Proof.
  intros Hc H1 H2 H3. unfold dispatch. unfold_M.
  rewrite (go_index_eq _ _ _ Hc). simpl.
  apply String.eqb_neq in H1, H2, H3. rewrite H1, H2, H3.
  reflexivity.
Qed.

(** The four ways of the switch. *)
Lemma command_cases (c : string) :
  c = MD_REQUEST \/ c = MD_DISCONNECT \/ c = MD_HEARTBEAT
  \/ (c <> MD_REQUEST /\ c <> MD_DISCONNECT /\ c <> MD_HEARTBEAT).
Proof.
  destruct (String.eqb_spec c MD_REQUEST); [tauto|].
  destruct (String.eqb_spec c MD_DISCONNECT); [tauto|].
  destruct (String.eqb_spec c MD_HEARTBEAT); tauto.
Qed.

Lemma heartbeat_due_cases s i st :
  socket (wk st) = Some s ->
  heartbeat_due i st = (Ok tt, st) \/ heartbeat_due i st = (Ok tt, beaten i s st).
Proof.
  intros Hs. destruct (Z_lt_le_dec (heartbeatAt (wk st)) (now_check i)).
  - right. apply heartbeat_due_late; assumption.
  - left. apply heartbeat_due_early; assumption.
Qed.

(** The switch leaves a reset liveness counter reset, whatever the
    command, and leaves the worker with a socket. *)
Lemma dispatch_liveness m i st s :
  socket (wk st) = Some s ->
  (3 <= length m)%nat ->
  liveness (wk st) = maxLivenessCount (wk st) ->
  liveness (wk (snd (dispatch m i st))) = maxLivenessCount (wk st)
  /\ maxLivenessCount (wk (snd (dispatch m i st))) = maxLivenessCount (wk st)
  /\ exists s', socket (wk (snd (dispatch m i st))) = Some s'.
Proof.
  intros Hs Hlen Hl.
  destruct (lookup_is_Some_lt m 2) as [c Hc]; [lia|].
  destruct (command_cases c) as [-> | [-> | [-> | (H1 & H2 & H3)]]].
  - destruct (le_lt_dec 5 (length m)) as [H5 | H5].
    + destruct (lookup_is_Some_lt m 3) as [client Hcl]; [lia|].
      rewrite (dispatch_request m i st s client) by assumption.
      simpl. eauto.
    + rewrite dispatch_request_short by assumption. simpl. eauto.
  - rewrite dispatch_disconnect by assumption. simpl. eauto.
  - rewrite dispatch_heartbeat by assumption. simpl. eauto.
  - rewrite (dispatch_unknown m i st c) by assumption. simpl. eauto.
Qed.

(** C2: for every inbound message, the liveness counter after the
    dispatch is the maximum when the message has at least 3 frames,
    whatever its command; a message of fewer than 3 frames leaves the
    worker, and so its liveness counter, as it was, is logged and
    dropped, and nothing is dispatched. *)
Theorem liveness_after_message l i st s n :
  unsignalled st ->
  socket (wk st) = Some s ->
  polled i = PollOk (S n) ->
  ((3 <= length (inbound i))%nat ->
     liveness (wk (snd (iteration l i st))) = maxLivenessCount (wk st)
     /\ maxLivenessCount (wk (snd (iteration l i st))) = maxLivenessCount (wk st))
  /\ ((length (inbound i) < 3)%nat ->
        iteration l i st =
          (Ok (Continue (mkLocals (inbound i) None)),
           extended [ EvPoll s (pollInterval (wk st)); EvRecv s;
                      EvLog Error (NotEnoughFrames (length (inbound i))) ] st)
        /\ wk (snd (iteration l i st)) = wk st).
Proof.
  intros Hu Hs Hp. split.
  - intros Hlen.
    rewrite (iteration_message l i st s n) by assumption.
    destruct (dispatch_liveness (inbound i) i (at_dispatch s st) s)
      as (Hl & Hm & s' & Hs'); try assumption; [reflexivity|].
    simpl in Hl, Hm.
    destruct (dispatch (inbound i) i (at_dispatch s st)) as [[[output|]|p] st'];
      simpl in *; try (split; assumption).
    destruct (heartbeat_due_cases s' i st' Hs') as [-> | ->]; simpl;
      split; assumption.
  - intros Hlen.
    rewrite iteration_unsignalled by assumption.
    rewrite (poll_and_dispatch_message l i st s n) by assumption.
    rewrite received_short by assumption.
    unfold extended. simpl. tidy. split; reflexivity.
Qed.

End Dispatch.

Lemma liveness_after_message_witness :
  liveness (wk (snd (iteration (mkLocals [] None) (delivering bare_request) worker0)))
    = 3
  /\ iteration (mkLocals [] None) (delivering ["only-two"; "frames"]%string) worker0
     = (Ok (Continue (mkLocals ["only-two"; "frames"]%string None)),
        extended [ EvPoll 0%nat 500; EvRecv 0%nat;
                   EvLog Error (NotEnoughFrames 2) ] worker0).
Proof.
  pose proof (liveness_after_message (mkLocals [] None)
                (delivering bare_request) worker0 0%nat 0%nat
                (conj eq_refl eq_refl) eq_refl eq_refl) as [Hlong _].
  pose proof (liveness_after_message (mkLocals [] None)
                (delivering ["only-two"; "frames"]%string) worker0 0%nat 0%nat
                (conj eq_refl eq_refl) eq_refl eq_refl) as [_ Hshort].
  split.
  - apply Hlong. simpl. lia.
  - apply Hshort. simpl. lia.
Defined.

Section Commands.

Context {A : Type} `{WorkerAction A}.

Implicit Types (st : St A) (i : Input) (l : locals) (s : sock) (m : message).

Lemma added_app st st' es : out st' = out st ++ es -> added st st' = es.
Proof. intros E. unfold added. rewrite E. apply drop_app_length. Qed.

Lemma count_app p (tr tr' : list event) :
  count p (tr ++ tr') = (count p tr + count p tr')%nat.
Proof. unfold count. rewrite List.filter_app. apply length_app. Qed.

(** C6: a REQUEST of exactly 3 or exactly 4 frames passes the check
    of the frame count, and its dispatch then slices [msg[5:]] out of
    range (and, with 3 frames, [msg[3]] is out of range as well): the
    iteration panics.  With at least 5 frames the iteration returns.
    So the handling of a REQUEST is total exactly when it has at least
    5 frames. *)
Theorem short_request_out_of_range l i st s n :
  unsignalled st ->
  socket (wk st) = Some s ->
  polled i = PollOk (S n) ->
  command_of (inbound i) = Some MD_REQUEST ->
  (length (inbound i) <? 3)%nat = false
  /\ ((length (inbound i) = 3 \/ length (inbound i) = 4)%nat ->
        go_slice_from (inbound i) 5
          = Panic (SliceBoundsOutOfRange 5 (length (inbound i)))
        /\ fst (iteration l i st)
          = Panic (SliceBoundsOutOfRange 5 (length (inbound i))))
  /\ (length (inbound i) = 3%nat ->
        go_index (inbound i) 3 = Panic (IndexOutOfRange 3 3))
  /\ ((5 <= length (inbound i))%nat ->
        exists output, fst (iteration l i st) = Ok (Return output None)).
Proof.
  intros Hu Hs Hp Hc.
  assert (3 <= length (inbound i))%nat as H3.
  { apply lookup_lt_Some in Hc. lia. }
  split; [apply Nat.ltb_ge; exact H3|].
  split; [|split].
  - intros Hlen. assert (length (inbound i) < 5)%nat as H5 by lia.
    split; [apply go_slice_from_gt; exact H5|].
    rewrite (iteration_message l i st s n) by assumption.
    rewrite dispatch_request_short by assumption. reflexivity.
  - intros Hlen. unfold go_index.
    assert (inbound i !! 3%nat = None) as E
      by (apply lookup_ge_None_2; lia).
    rewrite E, Hlen. reflexivity.
  - intros Hlen.
    destruct (lookup_is_Some_lt (inbound i) 3) as [client Hcl]; [lia|].
    rewrite (iteration_message l i st s n) by assumption.
    rewrite (dispatch_request _ _ _ s client) by assumption.
    eexists. reflexivity.
Qed.

(** C8: for every inbound message of at least 3 frames whose command
    frame is DISCONNECT, the worker closes its socket once, opens one
    new socket and sends one READY on it, and [Receive] goes on with
    its loop: it does not return because of that message. *)
Theorem disconnect_reconnects l i st s n :
  unsignalled st ->
  socket (wk st) = Some s ->
  polled i = PollOk (S n) ->
  command_of (inbound i) = Some MD_DISCONNECT ->
  exists st' tail,
    iteration l i st = (Ok (Continue (mkLocals (inbound i) None)), st')
    /\ (forall rest,
          Receive_loop (Tick i :: rest) l st
            = Receive_loop rest (mkLocals (inbound i) None) st')
    /\ out st' =
         out st
         ++ [ EvPoll s (pollInterval (wk st)); EvRecv s;
              EvLog Debug ReceivedDisconnect; EvClose s ]
         ++ handshake (context (wk st)) (brokerAddress (wk st))
              (serviceName (wk st)) (fresh st)
         ++ tail
    /\ (tail = [] \/ tail = heartbeat_sent (fresh st))
    /\ count is_close (added st st') = 1%nat
    /\ count is_open (added st st') = 1%nat
    /\ count (sends MD_READY) (added st st') = 1%nat
    /\ socket (wk st') = Some (fresh st).
Proof.
  intros Hu Hs Hp Hc.
  assert (3 <= length (inbound i))%nat as H3.
  { apply lookup_lt_Some in Hc. lia. }
  pose proof (iteration_message l i st s n Hu Hs Hp H3) as Hit.
  rewrite dispatch_disconnect in Hit by assumption.
  set (st1 := reconnected i (extended [EvLog Debug ReceivedDisconnect] (at_dispatch s st))) in *.
  assert (socket (wk st1) = Some (fresh st)) as Hs1 by reflexivity.
  assert (out st1 =
          out st
          ++ [ EvPoll s (pollInterval (wk st)); EvRecv s;
               EvLog Debug ReceivedDisconnect; EvClose s ]
          ++ handshake (context (wk st)) (brokerAddress (wk st))
               (serviceName (wk st)) (fresh st)) as Ho1.
  { subst st1. simpl. rewrite Hs. simpl. tidy. reflexivity. }
  clearbody st1.
  destruct (heartbeat_due_cases (fresh st) i st1 Hs1) as [E | E];
    rewrite E in Hit.
  - exists st1, []. split; [exact Hit|].
    split; [intros rest; simpl; rewrite Hit; reflexivity|].
    split; [rewrite Ho1; tidy; reflexivity|].
    split; [left; reflexivity|].
    rewrite (added_app st st1 _ Ho1). repeat split; assumption || reflexivity.
  - exists (beaten i (fresh st) st1), (heartbeat_sent (fresh st)).
    split; [exact Hit|].
    split; [intros rest; simpl; rewrite Hit; reflexivity|].
    assert (out (beaten i (fresh st) st1) =
            out st
            ++ [ EvPoll s (pollInterval (wk st)); EvRecv s;
                 EvLog Debug ReceivedDisconnect; EvClose s ]
            ++ handshake (context (wk st)) (brokerAddress (wk st))
                 (serviceName (wk st)) (fresh st)
            ++ heartbeat_sent (fresh st)) as Ho2.
    { simpl. rewrite Ho1. tidy. reflexivity. }
    split; [exact Ho2|].
    split; [right; reflexivity|].
    rewrite (added_app _ _ _ Ho2). repeat split; assumption || reflexivity.
Qed.

End Commands.

Lemma short_request_out_of_range_witness :
  fst (iteration (mkLocals [] None) (delivering short_request) worker0)
    = Panic (SliceBoundsOutOfRange 5 4)
  /\ fst (iteration (mkLocals [] None) (delivering bare_request) worker0)
    = Panic (SliceBoundsOutOfRange 5 3)
  /\ go_index bare_request 3 = Panic (IndexOutOfRange 3 3).
Proof.
  destruct (short_request_out_of_range (mkLocals [] None)
              (delivering short_request) worker0 0%nat 0%nat
              (conj eq_refl eq_refl) eq_refl eq_refl eq_refl)
    as (_ & H4 & _ & _).
  destruct (short_request_out_of_range (mkLocals [] None)
              (delivering bare_request) worker0 0%nat 0%nat
              (conj eq_refl eq_refl) eq_refl eq_refl eq_refl)
    as (_ & H3 & Hi & _).
  split; [apply H4; right; reflexivity|].
  split; [apply H3; left; reflexivity|].
  apply Hi. reflexivity.
Defined.

Lemma disconnect_reconnects_witness :
  exists st' tail,
    iteration (mkLocals [] None)
      (delivering [EmptyString; MD_WORKER; MD_DISCONNECT]) worker0
      = (Ok (Continue (mkLocals [EmptyString; MD_WORKER; MD_DISCONNECT] None)), st')
    /\ out st' =
         out worker0
         ++ [ EvPoll 0%nat 500; EvRecv 0%nat;
              EvLog Debug ReceivedDisconnect; EvClose 0%nat ]
         ++ handshake 7%nat "tcp://localhost:5555" "echo" 1%nat
         ++ tail.
Proof.
  destruct (disconnect_reconnects (mkLocals [] None)
              (delivering [EmptyString; MD_WORKER; MD_DISCONNECT]) worker0
              0%nat 0%nat (conj eq_refl eq_refl) eq_refl eq_refl eq_refl)
    as (st' & tail & Hit & _ & Hout & _).
  exists st', tail. split; [exact Hit | exact Hout].
Defined.

Section Shutdowns.

Context {A : Type} `{WorkerAction A}.

Implicit Types (st : St A) (i : Input) (l : locals) (s : sock) (m : message).

Lemma iteration_signalled l i st v q :
  Chan.buf (shutdown (wk st)) = [] ->
  Chan.sendq (shutdown (wk st)) = v :: q ->
  iteration l i st =
    (Ok (Return (msg l) (Some "Graceful shutdown"%string)),
     mkSt (set_shutdown (Chan.mk (Chan.cap (shutdown (wk st))) [] q) (wk st))
       (out st ++ [EvTake v] ++ closing (socket (wk st))
          ++ [EvTerm (context (wk st)); EvLog Debug ClosedSuccessfully])
       (fresh st)).
Proof.
  intros Hb Hq. unfold iteration. unfold_M.
  unfold Chan.try_recv. rewrite Hb, Hq. simpl.
  rewrite cleanup_eq. simpl. unfold extended. simpl. tidy. reflexivity.
Qed.

(** C4: once the shutdown signal is there (a caller of [Shutdown] is
    parked on the channel), the next iteration of [Receive] takes it,
    closes the socket, exactly once, terminates the context, and
    returns the error "Graceful shutdown"; nothing of the script is
    used after that, so there is no poll, no call of the handler and no
    send afterwards. *)
Theorem shutdown_is_obeyed l i rest st s v q :
  Chan.buf (shutdown (wk st)) = [] ->
  Chan.sendq (shutdown (wk st)) = v :: q ->
  socket (wk st) = Some s ->
  exists st',
    Receive_loop (Tick i :: rest) l st
      = (Returned (msg l) (Some "Graceful shutdown"%string), st')
    /\ out st' =
         out st ++ [ EvTake v; EvClose s; EvTerm (context (wk st));
                     EvLog Debug ClosedSuccessfully ]
    /\ count is_close (added st st') = 1%nat
    /\ count is_term (added st st') = 1%nat
    /\ count is_poll (added st st') = 0%nat
    /\ count is_call (added st st') = 0%nat
    /\ count is_send (added st st') = 0%nat
    /\ Chan.sendq (shutdown (wk st')) = q.
Proof.
  intros Hb Hq Hs. eexists. simpl.
  rewrite (iteration_signalled l i st v q Hb Hq). rewrite Hs.
  split; [reflexivity|]. simpl.
  split; [reflexivity|].
  erewrite added_app by (simpl; reflexivity).
  repeat split; reflexivity.
Qed.

Lemma Shutdown_unbuffered st :
  shutdown (wk st) = Chan.make 0 ->
  Shutdown st =
    (Chan.Blocked,
     mkSt (set_shutdown (Chan.mk 0 [] [true]) (wk st))
       (out st ++ [EvLog Debug AttemptingShutdown]) (fresh st)).
Proof.
  intros Hc. unfold Shutdown, record. simpl. rewrite Hc. reflexivity.
Qed.

(** C10, as amended: the channel of the worker is unbuffered, so a
    call of [Shutdown] that comes before the loop is at its check does
    not return but stays parked in its send; the signal is not lost:
    the next check of the loop takes it and releases the caller, and
    this happens before the loop closes the socket and the context, so
    [Shutdown] does not wait for the loop to exit. *)
Theorem shutdown_is_a_rendezvous l i st :
  shutdown (wk st) = Chan.make 0 ->
  exists st1 st2,
    Shutdown st = (Chan.Blocked, st1)
    /\ Chan.sendq (shutdown (wk st1)) = [true]
    /\ Chan.buf (shutdown (wk st1)) = []
    /\ iteration l i st1
         = (Ok (Return (msg l) (Some "Graceful shutdown"%string)), st2)
    /\ Chan.sendq (shutdown (wk st2)) = []
    /\ out st2 =
         out st
         ++ [EvLog Debug AttemptingShutdown; EvTake true]
         ++ closing (socket (wk st))
         ++ [EvTerm (context (wk st)); EvLog Debug ClosedSuccessfully].
Proof.
  intros Hc. rewrite (Shutdown_unbuffered st Hc).
  eexists. eexists. split; [reflexivity|].
  split; [reflexivity|]. split; [reflexivity|].
  rewrite (iteration_signalled l i _ true []) by reflexivity.
  split; [reflexivity|]. split; [reflexivity|].
  simpl. tidy. reflexivity.
Qed.

(** On the single-slot channel of the spec, the send of [Shutdown]
    would complete without a receiver. *)
Lemma single_slot_send : fst (Chan.send true single_slot) = Chan.Sent.
Proof. reflexivity. Qed.

(** The worker's channel is the unbuffered one from its construction on. *)
Lemma newWorker_shutdown c address name hb rc poll maxLiveness (action : A) i s0 :
  shutdown (wk (newWorker c address name hb rc poll maxLiveness action i s0))
    = Chan.make 0.
Proof. unfold newWorker. rewrite reconnectToBroker_eq. reflexivity. Qed.

(** [newWorker] leaves a fresh connect: a socket, the liveness counter
    at its maximum, the deadline one heartbeat interval ahead, and no
    signal pending. *)
Lemma newWorker_connected c address name hb rc poll maxLiveness (action : A) i s0 :
  socket (wk (newWorker c address name hb rc poll maxLiveness action i s0))
    = Some s0
  /\ liveness (wk (newWorker c address name hb rc poll maxLiveness action i s0))
      = maxLiveness
  /\ maxLivenessCount (wk (newWorker c address name hb rc poll maxLiveness action i s0))
      = maxLiveness
  /\ heartbeatAt (wk (newWorker c address name hb rc poll maxLiveness action i s0))
      = now_connect i + hb
  /\ unsignalled (newWorker c address name hb rc poll maxLiveness action i s0).
Proof.
  unfold newWorker. rewrite reconnectToBroker_eq.
  repeat split; reflexivity.
Qed.

End Shutdowns.

Lemma shutdown_is_obeyed_witness :
  exists st',
    Receive_loop [Tick idle; Tick idle] (mkLocals [] None) (snd (Shutdown worker0))
      = (Returned [] (Some "Graceful shutdown"%string), st')
    /\ out st' =
         out (snd (Shutdown worker0))
         ++ [ EvTake true; EvClose 0%nat; EvTerm 7%nat;
              EvLog Debug ClosedSuccessfully ].
Proof.
  destruct (shutdown_is_obeyed (mkLocals [] None) idle [Tick idle]
              (snd (Shutdown worker0)) 0%nat true [] eq_refl eq_refl eq_refl)
    as (st' & Hrun & Hout & _).
  exists st'. split; [exact Hrun | exact Hout].
Defined.

(** C10, as the spec states it, fails on the worker [newWorker] builds:
    with nobody at the check, the call of [Shutdown] does not return. *)
Lemma shutdown_does_not_return_at_once : ~ returns_at_once worker0.
Proof. unfold returns_at_once. vm_compute. discriminate. Qed.

Lemma shutdown_is_a_rendezvous_witness :
  exists st1 st2,
    Shutdown worker0 = (Chan.Blocked, st1)
    /\ iteration (mkLocals [] None) idle st1
         = (Ok (Return [] (Some "Graceful shutdown"%string)), st2)
    /\ Chan.sendq (shutdown (wk st2)) = [].
Proof.
  destruct (shutdown_is_a_rendezvous (mkLocals [] None) idle worker0 eq_refl)
    as (st1 & st2 & Hsd & _ & _ & Hit & Hq & _).
  exists st1, st2. split; [exact Hsd|]. split; [exact Hit | exact Hq].
Defined.

Section Silence.

Context {A : Type} `{WorkerAction A}.

Implicit Types (st : St A) (i : Input) (l : locals) (s : sock) (m : message).

Lemma wrap_int_id z : int_min <= z <= int_max -> wrap_int z = z.
Proof.
  unfold wrap_int, int_min, int_max. intros Hz.
  rewrite Z.mod_small; lia.
Qed.

Lemma silent_poll_alive i st :
  1 < liveness (wk st) <= int_max ->
  silent_poll i st =
    (Ok tt, mkSt (set_liveness (liveness (wk st) - 1) (wk st)) (out st) (fresh st)).
Proof.
  intros Hl. unfold silent_poll. unfold_M.
  rewrite wrap_int_id by (unfold int_min, int_max in *; lia).
  destruct (Z.leb_spec (liveness (wk st) - 1) 0); [lia | reflexivity].
Qed.

Lemma silent_poll_dead i st :
  liveness (wk st) = 1 ->
  silent_poll i st =
    (Ok tt,
     reconnected i
       (extended [ EvLog Warn (NothingReceived (maxLivenessCount (wk st))
                                 (reconnect (wk st)));
                   EvSleep (reconnect (wk st)) ]
          (mkSt (set_liveness 0 (wk st)) (out st) (fresh st)))).
Proof.
  intros Hl. unfold silent_poll. unfold_M. rewrite Hl. simpl.
  rewrite reconnectToBroker_eq. simpl. tidy. reflexivity.
Qed.

Lemma Receive_loop_app (a b : list tick) l st :
  Receive_loop (a ++ b) l st =
    match Receive_loop a l st with
    | (Running l', st') => Receive_loop b l' st'
    | r => r
    end.
Proof.
  revert l st. induction a as [|t a IH]; intros l st; simpl.
  - reflexivity.
  - destruct t as [i|].
    + destruct (iteration l i st) as [[[l'|m e]|p] st']; try reflexivity.
      apply IH.
    + apply IH.
Qed.

(** A silent poll that leaves the counter above zero: nothing but the
    poll, and the heartbeat when it is due. *)
Lemma iteration_silent_alive l i st s :
  unsignalled st ->
  socket (wk st) = Some s ->
  polled i = PollOk 0 ->
  1 < liveness (wk st) <= int_max ->
  exists st' es,
    iteration l i st = (Ok (Continue (mkLocals (msg l) None)), st')
    /\ liveness (wk st') = liveness (wk st) - 1
    /\ out st' = out st ++ es
    /\ count reconnects es = 0%nat
    /\ socket (wk st') = Some s
    /\ unsignalled st'
    /\ config (wk st') = config (wk st)
    /\ fresh st' = fresh st.
Proof.
  intros Hu Hs Hp Hl.
  rewrite iteration_unsignalled by assumption.
  rewrite (poll_and_dispatch_silent l i st s) by assumption.
  unfold bind at 1. rewrite silent_poll_alive by exact Hl.
  unfold bind at 1.
  set (st1 := mkSt _ _ _).
  assert (socket (wk st1) = Some s) as Hs1 by exact Hs.
  destruct (heartbeat_due_cases s i st1 Hs1) as [-> | ->]; unfold ret.
  - exists st1, [EvPoll s (pollInterval (wk st))].
    repeat split; try reflexivity; try assumption; apply Hu.
  - exists (beaten i s st1), (EvPoll s (pollInterval (wk st)) :: heartbeat_sent s).
    repeat split; try reflexivity; try assumption; try apply Hu.
    simpl. tidy. reflexivity.
Qed.

(** The silent poll that takes the counter to zero: the warning, the
    sleep, the close of the old socket and the handshake on a new one. *)
Lemma iteration_silent_dead l i st s :
  unsignalled st ->
  socket (wk st) = Some s ->
  polled i = PollOk 0 ->
  liveness (wk st) = 1 ->
  exists st' tail,
    iteration l i st = (Ok (Continue (mkLocals (msg l) None)), st')
    /\ liveness (wk st') = maxLivenessCount (wk st)
    /\ out st' =
         out st
         ++ [ EvPoll s (pollInterval (wk st));
              EvLog Warn (NothingReceived (maxLivenessCount (wk st))
                            (reconnect (wk st)));
              EvSleep (reconnect (wk st));
              EvClose s ]
         ++ handshake (context (wk st)) (brokerAddress (wk st))
              (serviceName (wk st)) (fresh st)
         ++ tail
    /\ count reconnects tail = 0%nat
    /\ socket (wk st') = Some (fresh st).
Proof.
  intros Hu Hs Hp Hl.
  rewrite iteration_unsignalled by assumption.
  rewrite (poll_and_dispatch_silent l i st s) by assumption.
  unfold bind at 1. rewrite silent_poll_dead by exact Hl.
  unfold bind at 1.
  set (st1 := reconnected _ _).
  assert (socket (wk st1) = Some (fresh st)) as Hs1 by reflexivity.
  assert (out st1 =
          out st
          ++ [ EvPoll s (pollInterval (wk st));
               EvLog Warn (NothingReceived (maxLivenessCount (wk st))
                             (reconnect (wk st)));
               EvSleep (reconnect (wk st));
               EvClose s ]
          ++ handshake (context (wk st)) (brokerAddress (wk st))
               (serviceName (wk st)) (fresh st)) as Ho1.
  { subst st1. simpl. rewrite Hs. simpl. tidy. reflexivity. }
  assert (liveness (wk st1) = maxLivenessCount (wk st)) as Hl1 by reflexivity.
  clearbody st1.
  destruct (heartbeat_due_cases (fresh st) i st1 Hs1) as [-> | ->]; unfold ret.
  - exists st1, []. rewrite Ho1. tidy.
    repeat split; try reflexivity; assumption.
  - exists (beaten i (fresh st) st1), (heartbeat_sent (fresh st)).
    simpl. rewrite Ho1. tidy.
    repeat split; try reflexivity; assumption.
Qed.

Lemma count_none (p q : event -> bool) (tr : list event) :
  (forall e, p e = true -> q e = true) ->
  count q tr = 0%nat -> count p tr = 0%nat.
Proof.
  intros Hpq. unfold count. induction tr as [|e tr IH]; simpl; [reflexivity|].
  destruct (q e) eqn:Hq; simpl; [discriminate|].
  destruct (p e) eqn:Hp; [|exact IH].
  apply Hpq in Hp. congruence.
Qed.

Lemma sleep_reconnects e : is_sleep e = true -> reconnects e = true.
Proof. unfold reconnects. intros ->. reflexivity. Qed.

Lemma close_reconnects e : is_close e = true -> reconnects e = true.
Proof. unfold reconnects. intros ->. apply orb_true_iff. left. apply orb_true_iff. left. apply orb_true_r. Qed.

Lemma open_reconnects e : is_open e = true -> reconnects e = true.
Proof. unfold reconnects. intros ->. apply orb_true_iff. left. apply orb_true_r. Qed.

Lemma ready_reconnects e : sends MD_READY e = true -> reconnects e = true.
Proof. unfold reconnects. intros ->. apply orb_true_r. Qed.

(** Fewer silent polls than the counter allows. *)
Lemma silent_run (inputs : list Input) l st s :
  unsignalled st ->
  socket (wk st) = Some s ->
  Forall (fun i => polled i = PollOk 0) inputs ->
  Z.of_nat (length inputs) < liveness (wk st) <= int_max ->
  exists l' st' es,
    Receive_loop (map Tick inputs) l st = (Running l', st')
    /\ msg l' = msg l
    /\ liveness (wk st') = liveness (wk st) - Z.of_nat (length inputs)
    /\ out st' = out st ++ es
    /\ count reconnects es = 0%nat
    /\ socket (wk st') = Some s
    /\ unsignalled st'
    /\ config (wk st') = config (wk st)
    /\ fresh st' = fresh st.
Proof.
  revert l st. induction inputs as [|i inputs IH]; intros l st Hu Hs Hall Hl.
  - exists l, st, []. simpl. rewrite app_nil_r.
    repeat split; try reflexivity; try assumption; try apply Hu. lia.
  - inversion Hall as [|? ? Hi Hrest]; subst.
    simpl length in Hl.
    destruct (iteration_silent_alive l i st s Hu Hs Hi)
      as (st1 & es1 & Hit & Hl1 & Ho1 & Hc1 & Hs1 & Hu1 & Hcf1 & Hf1); [lia|].
    destruct (IH (mkLocals (msg l) None) st1 Hu1 Hs1 Hrest)
      as (l' & st' & es & Hrun & Hm & Hl' & Ho & Hc & Hs' & Hu' & Hcf & Hf); [lia|].
    exists l', st', (es1 ++ es). simpl. rewrite Hit.
    split; [exact Hrun|]. split; [exact Hm|].
    split; [lia|].
    split; [rewrite Ho, Ho1; tidy; reflexivity|].
    split; [rewrite count_app; lia|].
    split; [exact Hs'|]. split; [exact Hu'|].
    split; congruence.
Qed.

(** C3: from a fresh connect (the liveness counter at its maximum,
    which is positive), fewer silent polls in a row than the maximum
    only take the counter down, with no sleep, close, new socket or
    READY; exactly as many silent polls as the maximum end in one
    sleep of the reconnect delay followed by one reconnect, which
    sends one READY on the new socket. *)
Theorem reconnect_after_silence (inputs : list Input) l st s :
  unsignalled st ->
  socket (wk st) = Some s ->
  liveness (wk st) = maxLivenessCount (wk st) ->
  1 <= maxLivenessCount (wk st) <= int_max ->
  Forall (fun i => polled i = PollOk 0) inputs ->
  (Z.of_nat (length inputs) < maxLivenessCount (wk st) ->
     exists l' st',
       Receive_loop (map Tick inputs) l st = (Running l', st')
       /\ liveness (wk st')
            = maxLivenessCount (wk st) - Z.of_nat (length inputs)
       /\ count reconnects (added st st') = 0%nat
       /\ socket (wk st') = Some s)
  /\ (Z.of_nat (length inputs) = maxLivenessCount (wk st) ->
        exists l' st' before after,
          Receive_loop (map Tick inputs) l st = (Running l', st')
          /\ out st' =
               out st ++ before
               ++ [ EvLog Warn (NothingReceived (maxLivenessCount (wk st))
                                  (reconnect (wk st)));
                    EvSleep (reconnect (wk st));
                    EvClose s ]
               ++ handshake (context (wk st)) (brokerAddress (wk st))
                    (serviceName (wk st)) (fresh st)
               ++ after
          /\ count reconnects before = 0%nat
          /\ count reconnects after = 0%nat
          /\ count is_sleep (added st st') = 1%nat
          /\ count is_open (added st st') = 1%nat
          /\ count (sends MD_READY) (added st st') = 1%nat
          /\ liveness (wk st') = maxLivenessCount (wk st)
          /\ socket (wk st') = Some (fresh st)).
Proof.
  intros Hu Hs Hl Hmax Hall. split.
  - intros Hlen.
    destruct (silent_run inputs l st s Hu Hs Hall)
      as (l' & st' & es & Hrun & _ & Hl' & Ho & Hc & Hs' & _); [lia|].
    exists l', st'. split; [exact Hrun|]. split; [lia|].
    split; [rewrite (added_app st st' es Ho); exact Hc | exact Hs'].
  - intros Hlen.
    destruct (exists_last (l := inputs)) as (front & i & ->).
    { intros ->. simpl in Hlen. lia. }
    rewrite length_app in Hlen. simpl in Hlen.
    apply Forall_app in Hall. destruct Hall as [Hfront Hlast].
    inversion Hlast as [|? ? Hi _]; subst.
    destruct (silent_run front l st s Hu Hs Hfront)
      as (l1 & st1 & es & Hrun & _ & Hl1 & Ho1 & Hc1 & Hs1 & Hu1 & Hcf1 & Hf1);
      [lia|].
    destruct (iteration_silent_dead l1 i st1 s Hu1 Hs1 Hi)
      as (st' & tail & Hit & Hl' & Ho' & Hct & Hs'); [lia|].
    unfold config in Hcf1. injection Hcf1 as Ha Hn Hh Hr Hp Hm Hc.
    rewrite Ha, Hn, Hr, Hp, Hm, Hc, Hf1, Ho1 in Ho'.
    rewrite Hm in Hl'. rewrite Hf1 in Hs'.
    assert (out st' =
            out st ++ (es ++ [EvPoll s (pollInterval (wk st))])
            ++ [ EvLog Warn (NothingReceived (maxLivenessCount (wk st))
                               (reconnect (wk st)));
                 EvSleep (reconnect (wk st));
                 EvClose s ]
            ++ handshake (context (wk st)) (brokerAddress (wk st))
                 (serviceName (wk st)) (fresh st)
            ++ tail) as Hout.
    { rewrite Ho'. tidy. reflexivity. }
    exists (mkLocals (msg l1) None), st', (es ++ [EvPoll s (pollInterval (wk st))]), tail.
    split.
    { rewrite map_app, Receive_loop_app, Hrun. simpl. rewrite Hit. reflexivity. }
    split; [exact Hout|].
    assert (count reconnects (es ++ [EvPoll s (pollInterval (wk st))]) = 0%nat)
      as Hcb by (rewrite count_app, Hc1; reflexivity).
    split; [exact Hcb|]. split; [exact Hct|].
    rewrite (added_app st st' _ Hout).
    rewrite !count_app.
    rewrite (count_none is_sleep reconnects _ sleep_reconnects Hc1).
    rewrite (count_none is_open reconnects _ open_reconnects Hc1).
    rewrite (count_none (sends MD_READY) reconnects _ ready_reconnects Hc1).
    rewrite (count_none is_sleep reconnects _ sleep_reconnects Hct).
    rewrite (count_none is_open reconnects _ open_reconnects Hct).
    rewrite (count_none (sends MD_READY) reconnects _ ready_reconnects Hct).
    repeat split; solve [reflexivity | assumption].
Qed.

End Silence.

Lemma reconnect_after_silence_witness :
  (exists l' st',
     Receive_loop (map Tick [idle; idle]) (mkLocals [] None) worker0
       = (Running l', st')
     /\ liveness (wk st') = 1
     /\ count reconnects (added worker0 st') = 0%nat)
  /\ (exists l' st',
        Receive_loop (map Tick [idle; idle; idle]) (mkLocals [] None) worker0
          = (Running l', st')
        /\ count is_sleep (added worker0 st') = 1%nat
        /\ count (sends MD_READY) (added worker0 st') = 1%nat
        /\ socket (wk st') = Some 1%nat).
Proof.
  assert (1 <= maxLivenessCount (wk worker0) <= int_max) as Hmax
    by (split; discriminate).
  split.
  - destruct (reconnect_after_silence [idle; idle] (mkLocals [] None) worker0 0%nat
                (conj eq_refl eq_refl) eq_refl eq_refl Hmax
                ltac:(repeat constructor))
      as [Hfew _].
    destruct (Hfew eq_refl) as (l' & st' & Hrun & Hl & Hc & _).
    exists l', st'. split; [exact Hrun|]. split; [exact Hl | exact Hc].
  - destruct (reconnect_after_silence [idle; idle; idle] (mkLocals [] None) worker0 0%nat
                (conj eq_refl eq_refl) eq_refl eq_refl Hmax
                ltac:(repeat constructor))
      as [_ Hall].
    destruct (Hall eq_refl)
      as (l' & st' & before & after & Hrun & _ & _ & _ & Hsl & _ & Hrd & _ & Hs).
    exists l', st'. split; [exact Hrun|]. split; [exact Hsl|].
    split; [exact Hrd | exact Hs].
Defined.

Section Walks.

Context {A : Type} `{WorkerAction A}.

Implicit Types (st : St A) (i : Input) (l : locals) (s : sock) (m : message).

Lemma walks_bind {X Y} (c : M A X) (k : X -> M A Y) :
  walks (A := A) c -> (forall x, walks (A := A) (k x)) -> walks (A := A) (bind c k).
Proof.
  intros Hc Hk i st. unfold bind. specialize (Hc i st).
  destruct (c i st) as [[x|p] st1]; simpl in *.
  - etrans; [exact Hc | apply Hk].
  - exact Hc.
Qed.

Lemma walks_ret {X} (x : X) : walks (A := A) (ret x).
Proof. intros i st. apply rtc_refl. Qed.

Lemma walks_throw {X} p : walks (A := A) (throw (X := X) p).
Proof. intros i st. apply rtc_refl. Qed.

Lemma walks_lift {X} (r : res X) : walks (A := A) (lift r).
Proof. intros i st. apply rtc_refl. Qed.

Lemma walks_ask {X} (f : Input -> X) : walks (A := A) (ask f).
Proof. intros i st. apply rtc_refl. Qed.

Lemma walks_gets {X} (f : mdWorker A -> X) : walks (A := A) (gets f).
Proof. intros i st. apply rtc_refl. Qed.

Lemma walks_emit e : harmless e = true -> walks (A := A) (emit e).
Proof. intros He i st. apply rtc_once. apply (atom_note e st He). Qed.

Lemma walks_the_socket : walks (A := A) the_socket.
Proof.
  unfold the_socket. apply walks_bind; [apply walks_gets|].
  intros [s|]; [apply walks_ret | apply walks_throw].
Qed.

Lemma walks_set_liveness n : walks (A := A) (modify (set_liveness n)).
Proof. intros i st. apply rtc_once. apply atom_liveness. Qed.

Lemma walks_set_workerAction a : walks (A := A) (modify (set_workerAction a)).
Proof. intros i st. apply rtc_once. apply atom_action. Qed.

Lemma walks_set_shutdown c : walks (A := A) (modify (set_shutdown c)).
Proof. intros i st. apply rtc_once. apply atom_shutdown. Qed.

Lemma walks_reconnectToBroker : walks (A := A) reconnectToBroker.
Proof.
  intros i st. rewrite reconnectToBroker_eq. apply rtc_once. apply atom_reconnect.
Qed.

Lemma walks_sendToBroker command name body :
  command <> MD_READY -> command <> MD_HEARTBEAT ->
  walks (A := A) (sendToBroker command name body).
Proof.
  intros Hr Hb i st. destruct (socket (wk st)) as [s|] eqn:Hs.
  - rewrite (sendToBroker_on s) by exact Hs. simpl.
    eapply rtc_l; [apply (atom_send s command name body st Hs Hr Hb)|].
    apply rtc_once.
    replace (extended [EvSend s (workerMessage command name body);
                       EvLog Debug (SentCommand command body)] st)
      with (extended [EvLog Debug (SentCommand command body)]
              (extended [EvSend s (workerMessage command name body)] st)).
    + apply atom_note. reflexivity.
    + unfold extended. simpl. tidy. reflexivity.
  - rewrite sendToBroker_nil by exact Hs. apply rtc_refl.
Qed.

Lemma heartbeat_due_nil i st :
  socket (wk st) = None ->
  heartbeat_due i st = (Ok tt, st) \/ heartbeat_due i st = (Panic NilDereference, st).
Proof.
  intros Hs. unfold heartbeat_due. unfold_M.
  destruct (heartbeatAt (wk st) <? now_check i); [right | left; reflexivity].
  rewrite sendToBroker_nil by exact Hs. reflexivity.
Qed.

Lemma walks_heartbeat_due : walks (A := A) heartbeat_due.
Proof.
  intros i st. destruct (socket (wk st)) as [s|] eqn:Hs.
  - destruct (heartbeat_due_cases s i st Hs) as [-> | ->]; simpl.
    + apply rtc_refl.
    + apply rtc_once. apply atom_beat. exact Hs.
  - destruct (heartbeat_due_nil i st Hs) as [-> | ->]; apply rtc_refl.
Qed.

Lemma walks_cleanup : walks (A := A) cleanup.
Proof.
  unfold cleanup.
  apply walks_bind; [apply walks_gets|]. intros so.
  apply walks_bind.
  { destruct so; [apply walks_emit; reflexivity | apply walks_ret]. }
  intros _. apply walks_bind; [apply walks_gets|]. intros c.
  apply walks_bind; [apply walks_emit; reflexivity|]. intros _.
  apply walks_emit. reflexivity.
Qed.

(** The steps of a proof that an operation walks. *)
Ltac walk_with known :=
  repeat first
    [ known
    | apply walks_ret | apply walks_throw | apply walks_lift
    | apply walks_ask | apply walks_gets
    | apply walks_the_socket
    | apply walks_set_liveness | apply walks_set_workerAction
    | apply walks_set_shutdown
    | apply walks_reconnectToBroker | apply walks_heartbeat_due
    | apply walks_cleanup
    | apply walks_sendToBroker; discriminate
    | apply walks_emit; reflexivity
    | apply walks_bind; [| intros ?]
    | match goal with
      | |- walks (if ?b then _ else _) => destruct b
      | |- walks (match ?x with _ => _ end) => destruct x
      | |- walks (let (_, _) := ?x in _) => destruct x
      end ].

Ltac walk := walk_with fail.

Lemma walks_call_action payload : walks (A := A) (call_action payload).
Proof. unfold call_action, logDebug. walk. Qed.

Lemma walks_dispatch m : walks (A := A) (dispatch m).
Proof. unfold dispatch, logDebug. walk_with ltac:(apply walks_call_action). Qed.

Lemma walks_silent_poll : walks (A := A) silent_poll.
Proof. unfold silent_poll, logWarn. walk. Qed.

Lemma walks_received m : walks (A := A) (received m).
Proof. unfold received, logError. walk_with ltac:(apply walks_dispatch). Qed.

Lemma walks_poll_and_dispatch l : walks (A := A) (poll_and_dispatch l).
Proof.
  unfold poll_and_dispatch, logError.
  walk_with ltac:(first [apply walks_received | apply walks_silent_poll]).
Qed.

Lemma walks_iteration l : walks (A := A) (iteration l).
Proof. unfold iteration. walk_with ltac:(apply walks_poll_and_dispatch). Qed.

Lemma Shutdown_walks st : rtc atom st (snd (Shutdown st)).
Proof.
  unfold Shutdown.
  destruct (Chan.send true (shutdown (wk (record (EvLog Debug AttemptingShutdown) st))))
    as [status c]. simpl.
  eapply rtc_l; [apply (atom_note (EvLog Debug AttemptingShutdown) st)|];
    [reflexivity|].
  apply rtc_once.
  exact (atom_shutdown c (extended [EvLog Debug AttemptingShutdown] st)).
Qed.

Lemma Receive_loop_walks script l st :
  rtc atom st (snd (Receive_loop script l st)).
Proof.
  revert l st. induction script as [|t script IH]; intros l st; simpl.
  - apply rtc_refl.
  - destruct t as [i|].
    + pose proof (walks_iteration l i st) as Hit.
      destruct (iteration l i st) as [[[l'|m e]|p] st1]; simpl in *;
        try exact Hit.
      etrans; [exact Hit | apply IH].
    + etrans; [apply Shutdown_walks | apply IH].
Qed.

Lemma run_walks calls st : rtc atom st (run calls st).
Proof.
  revert st. induction calls as [|c calls IH]; intros st; simpl.
  - apply rtc_refl.
  - destruct c as [script|].
    + etrans; [apply Receive_loop_walks | apply IH].
    + etrans; [apply Shutdown_walks | apply IH].
Qed.

End Walks.

Section Deadline.

Context {A : Type} `{WorkerAction A}.

Implicit Types (st : St A) (i : Input) (l : locals) (s : sock) (m : message).

Lemma deadline_kept_refl st : deadline_kept st st.
Proof. exists []. rewrite app_nil_r. split; [reflexivity | left; reflexivity]. Qed.

Lemma deadline_kept_trans st1 st2 st3 :
  deadline_kept st1 st2 -> deadline_kept st2 st3 -> deadline_kept st1 st3.
Proof.
  intros (es1 & Ho1 & Hd1) (es2 & Ho2 & Hd2). exists (es1 ++ es2).
  split; [rewrite Ho2, Ho1; tidy; reflexivity|].
  rewrite !count_app.
  destruct Hd1 as [Hd1 | Hd1]; [|right; lia].
  destruct Hd2 as [Hd2 | Hd2]; [left; congruence | right; lia].
Qed.

Lemma atom_deadline_kept st st' : atom st st' -> deadline_kept st st'.
Proof.
  intros Hat. destruct Hat.
  - exists [e]. split; [reflexivity | left; reflexivity].
  - exists []. simpl. rewrite app_nil_r. split; [reflexivity | left; reflexivity].
  - exists []. simpl. rewrite app_nil_r. split; [reflexivity | left; reflexivity].
  - exists []. simpl. rewrite app_nil_r. split; [reflexivity | left; reflexivity].
  - eexists. split; [reflexivity | left; reflexivity].
  - exists (heartbeat_sent s). split; [reflexivity | right].
    unfold count. simpl. lia.
  - eexists. split; [reflexivity | right].
    rewrite !count_app.
    assert (count (sends MD_READY)
              (handshake (context (wk st)) (brokerAddress (wk st))
                 (serviceName (wk st)) (fresh st)) = 1%nat) as -> by reflexivity.
    lia.
Qed.

Lemma rtc_deadline_kept st st' : rtc atom st st' -> deadline_kept st st'.
Proof.
  induction 1 as [|st1 st2 st3 Hat _ IH].
  - apply deadline_kept_refl.
  - eapply deadline_kept_trans; [apply atom_deadline_kept; exact Hat | exact IH].
Qed.

Lemma wk_sendToBroker command name body i st :
  wk (snd (sendToBroker command name body i st)) = wk st.
Proof.
  destruct (socket (wk st)) as [s|] eqn:Hs.
  - rewrite (sendToBroker_on s) by exact Hs. reflexivity.
  - rewrite sendToBroker_nil by exact Hs. reflexivity.
Qed.

(** C7, as amended: the deadline of the next heartbeat is recomputed
    only by a handshake and by the send of a HEARTBEAT: whatever
    [Receive] is given, the deadline differs afterwards only if a READY
    or a HEARTBEAT was handed to the socket meanwhile; [Shutdown] and
    [sendToBroker] leave it alone, so that the REPLY of a served
    REQUEST does not move it; the handshake sets it one heartbeat
    interval after its reading of the clock.  When the end of the loop
    body finds the deadline strictly before the current time, it sends
    a HEARTBEAT and sets the deadline one heartbeat interval after the
    reading of the clock that follows the send, not after the old
    deadline, and it does so whether or not the send succeeded; when
    the current time is the deadline or before it, it does nothing. *)
Theorem deadline_moves_with_heartbeat script l i st s n :
  deadline_kept st (snd (Receive_loop script l st))
  /\ heartbeatAt (wk (snd (Shutdown st))) = heartbeatAt (wk st)
  /\ (forall command name body,
        wk (snd (sendToBroker command name body i st)) = wk st)
  /\ (unsignalled st -> socket (wk st) = Some s -> polled i = PollOk (S n) ->
      (5 <= length (inbound i))%nat ->
      command_of (inbound i) = Some MD_REQUEST ->
      count (sends MD_REPLY) (added st (snd (iteration l i st))) = 1%nat
      /\ heartbeatAt (wk (snd (iteration l i st))) = heartbeatAt (wk st))
  /\ heartbeatAt (wk (snd (reconnectToBroker i st)))
       = now_connect i + heartbeat (wk st)
  /\ (socket (wk st) = Some s -> heartbeatAt (wk st) < now_check i ->
      heartbeat_due i st = (Ok tt, beaten i s st)
      /\ added st (beaten i s st) = heartbeat_sent s
      /\ heartbeatAt (wk (beaten i s st)) = now_sent i + heartbeat (wk st))
  /\ (now_check i <= heartbeatAt (wk st) -> heartbeat_due i st = (Ok tt, st))
  /\ (forall f, heartbeat_due (with_sends f i) st = heartbeat_due i st)
  /\ (unsignalled st -> socket (wk st) = Some s -> polled i = PollOk 0 ->
      1 < liveness (wk st) <= int_max ->
      heartbeatAt (wk st) < now_check i ->
      exists st',
        iteration l i st = (Ok (Continue (mkLocals (msg l) None)), st')
        /\ added st st' = EvPoll s (pollInterval (wk st)) :: heartbeat_sent s
        /\ heartbeatAt (wk st') = now_sent i + heartbeat (wk st)).
Proof.
  split; [apply rtc_deadline_kept, Receive_loop_walks|].
  split.
  { unfold Shutdown. destruct (Chan.send _ _). reflexivity. }
  split; [intros; apply wk_sendToBroker|].
  split.
  { intros Hu Hs Hp Hlen Hc.
    destruct (lookup_is_Some_lt (inbound i) 3) as [client H3]; [lia|].
    rewrite (iteration_message l i st s n) by (assumption || lia).
    rewrite (dispatch_request _ _ _ s client) by assumption.
    split; [|reflexivity].
    erewrite added_app; [|simpl; rewrite <- app_assoc; reflexivity].
    reflexivity. }
  split; [rewrite reconnectToBroker_eq; reflexivity|].
  split.
  { intros Hs Hlt. split; [apply heartbeat_due_late; assumption|].
    split; [apply added_app|]; reflexivity. }
  split; [apply heartbeat_due_early|].
  split.
  { intros f. destruct (socket (wk st)) as [s'|] eqn:Hs'.
    - destruct (Z_lt_le_dec (heartbeatAt (wk st)) (now_check i)) as [Hlt | Hle].
      + rewrite !(heartbeat_due_late s') by assumption. reflexivity.
      + rewrite !heartbeat_due_early by assumption. reflexivity.
    - unfold heartbeat_due. unfold_M.
      destruct (heartbeatAt (wk st) <? now_check i); [|reflexivity].
      rewrite !sendToBroker_nil by exact Hs'. reflexivity. }
  intros Hu Hs Hp Hl Hlt.
  rewrite iteration_unsignalled by assumption.
  rewrite (poll_and_dispatch_silent l i st s) by assumption.
  unfold bind at 1. rewrite silent_poll_alive by exact Hl.
  unfold bind at 1.
  rewrite (heartbeat_due_late s) by assumption.
  eexists. split; [reflexivity|]. split; [|reflexivity].
  apply added_app. simpl. tidy. reflexivity.
Qed.

End Deadline.

(** C7, as the spec states it, fails on [worker0], whose first deadline
    is 2500 and whose heartbeat interval is 2500.  When the clock
    reads 3000 at the check and 3100 after the send, the HEARTBEAT is
    sent and the deadline becomes 5600, not 5000.  When the clock reads
    2500 at the check, the deadline is reached and nothing is sent.
    When the send of the HEARTBEAT fails, the deadline moves all the
    same. *)
Lemma deadline_not_advanced_by_interval :
  ~ heartbeat_on_deadline (mkLocals [] None) late worker0
  /\ ~ heartbeat_on_deadline (mkLocals [] None) on_time worker0
  /\ heartbeatAt (wk worker0) = 2500
  /\ heartbeat (wk worker0) = 2500
  /\ heartbeatAt (wk (snd (iteration (mkLocals [] None) late worker0))) = 5600
  /\ added worker0 (snd (iteration (mkLocals [] None) on_time worker0))
       = [EvPoll 0%nat 500]
  /\ send_result failing beat = Some "resource temporarily unavailable"%string
  /\ heartbeatAt (wk (snd (iteration (mkLocals [] None) failing worker0))) = 5600.
Proof.
  split.
  { intros Hc. destruct Hc as [_ Hd]; [vm_compute; discriminate|].
    vm_compute in Hd. discriminate Hd. }
  split.
  { intros Hc. destruct Hc as [Hn _]; [vm_compute; discriminate|].
    vm_compute in Hn. discriminate Hn. }
  repeat split; vm_compute; reflexivity.
Qed.

Lemma deadline_moves_with_heartbeat_witness :
  exists st',
    iteration (mkLocals [] None) late worker0
      = (Ok (Continue (mkLocals [] None)), st')
    /\ added worker0 st' = EvPoll 0%nat 500 :: heartbeat_sent 0%nat
    /\ heartbeatAt (wk st') = 5600.
Proof.
  destruct (deadline_moves_with_heartbeat [] (mkLocals [] None) late worker0
              0%nat 0%nat)
    as (_ & _ & _ & _ & _ & _ & _ & _ & Hlate).
  apply Hlate.
  - split; reflexivity.
  - reflexivity.
  - reflexivity.
  - split; [reflexivity | discriminate].
  - reflexivity.
Defined.

Section Handshakes.

Context {A : Type} `{WorkerAction A}.

Implicit Types (st : St A) (i : Input) (l : locals) (s : sock) (m : message).

Lemma sends_on_app s (tr tr' : list event) :
  sends_on s (tr ++ tr') = sends_on s tr ++ sends_on s tr'.
Proof.
  induction tr as [|e tr IH]; simpl; [reflexivity|].
  destruct e; try exact IH.
  destruct (Nat.eqb _ s); simpl; [f_equal|]; exact IH.
Qed.

Lemma opened_app (tr tr' : list event) :
  opened (tr ++ tr') = opened tr ++ opened tr'.
Proof.
  induction tr as [|e tr IH]; simpl; [reflexivity|].
  destruct e; try exact IH. simpl. f_equal. exact IH.
Qed.

Lemma handshakes_app address name (tr tr' : list event) :
  handshakes address name tr -> handshakes address name tr' ->
  handshakes address name (tr ++ tr').
Proof.
  intros Htr Htr'. induction tr as [|e tr IH]; simpl; [exact Htr'|].
  destruct e; simpl in Htr; try (apply IH; exact Htr).
  destruct Htr as [[rest ->] Htr]. split; [|apply IH; exact Htr].
  exists (rest ++ tr'). simpl. reflexivity.
Qed.

Lemma count_snoc_false p (tr : list event) e :
  p e = false -> count p (tr ++ [e]) = count p tr.
Proof.
  intros He. rewrite count_app. unfold count at 2. simpl. rewrite He.
  simpl. lia.
Qed.

Lemma harmless_inv e :
  harmless e = true ->
  is_send e = false /\ is_open e = false /\ is_connected e = false.
Proof.
  unfold harmless. intros He. apply negb_true_iff in He.
  apply orb_false_iff in He. destruct He as [He Hc].
  apply orb_false_iff in He. tauto.
Qed.

Lemma sends_not_ready s m :
  command_of m <> Some MD_READY -> sends MD_READY (EvSend s m) = false.
Proof.
  intros Hc. unfold sends. destruct (command_of m) as [c|]; [|reflexivity].
  apply String.eqb_neq. intros ->. apply Hc. reflexivity.
Qed.

Lemma command_of_workerMessage command name body :
  command_of (workerMessage command name body) = Some command.
Proof. destruct name, body; reflexivity. Qed.

(** [sound] looks at the addresses, the socket, the trace and the
    next socket only. *)
Lemma sound_same s0 address name st st' :
  brokerAddress (wk st') = brokerAddress (wk st) ->
  serviceName (wk st') = serviceName (wk st) ->
  socket (wk st') = socket (wk st) ->
  out st' = out st ->
  fresh st' = fresh st ->
  sound s0 address name st -> sound s0 address name st'.
Proof.
  unfold sound. intros -> -> -> -> ->. tauto.
Qed.

Lemma sound_note s0 address name e st :
  harmless e = true ->
  sound s0 address name st -> sound s0 address name (extended [e] st).
Proof.
  intros He (Ha & Hn & Hf & Ho & Hs & Hin & Hout & Hh & Hc & Hk).
  destruct (harmless_inv e He) as (Hsend & Hopen & Hconn).
  assert (sends_on_e : forall s, sends_on s [e] = []).
  { intros s. destruct e; try reflexivity. discriminate Hsend. }
  assert (opened_e : opened [e] = []).
  { destruct e; try reflexivity. discriminate Hopen. }
  assert (ready_e : sends MD_READY e = false).
  { destruct e; try reflexivity. discriminate Hsend. }
  unfold sound, extended. simpl.
  split; [exact Ha|]. split; [exact Hn|]. split; [exact Hf|].
  split; [rewrite opened_app, opened_e, app_nil_r; exact Ho|].
  split; [exact Hs|].
  split.
  { intros s Hr. rewrite sends_on_app, sends_on_e, app_nil_r. apply Hin, Hr. }
  split.
  { intros s Hr. rewrite sends_on_app, sends_on_e, app_nil_r. apply Hout, Hr. }
  split.
  { apply handshakes_app; [exact Hh|].
    destruct e; try exact I. discriminate Hopen. }
  rewrite !count_snoc_false by assumption. split; assumption.
Qed.

Lemma sound_send s0 address name s m st :
  socket (wk st) = Some s ->
  command_of m <> Some MD_READY ->
  sound s0 address name st ->
  sound s0 address name (extended [EvSend s m] st).
Proof.
  intros Hsock Hcmd (Ha & Hn & Hf & Ho & Hs & Hin & Hout & Hh & Hc & Hk).
  pose proof (Hs s Hsock) as Hrange.
  unfold sound, extended. simpl.
  split; [exact Ha|]. split; [exact Hn|]. split; [exact Hf|].
  split; [rewrite opened_app, app_nil_r; exact Ho|].
  split; [exact Hs|].
  split.
  { intros s' Hr. rewrite sends_on_app. simpl.
    destruct (Hin s' Hr) as (rest & -> & Hrest).
    destruct (Nat.eqb s s').
    - exists (rest ++ [m]). split; [reflexivity|].
      apply Forall_app. split; [exact Hrest|]. constructor; [exact Hcmd | constructor].
    - exists rest. rewrite app_nil_r. split; [reflexivity | exact Hrest]. }
  split.
  { intros s' Hr. rewrite sends_on_app, (Hout s' Hr). simpl.
    destruct (Nat.eqb_spec s s') as [-> | _]; [tauto | reflexivity]. }
  split; [apply handshakes_app; [exact Hh | exact I]|].
  rewrite !count_snoc_false
    by (reflexivity || apply sends_not_ready; exact Hcmd).
  split; assumption.
Qed.

Lemma sound_handshake s0 address name c st st' :
  brokerAddress (wk st') = brokerAddress (wk st) ->
  serviceName (wk st') = serviceName (wk st) ->
  socket (wk st') = Some (fresh st) ->
  fresh st' = S (fresh st) ->
  out st' =
    out st ++ [ EvNewSocket c (fresh st); EvSetLinger (fresh st) 0;
                EvConnect (fresh st) address;
                EvLog Debug (ConnectedSuccessfully address);
                EvSend (fresh st) (ready name);
                EvLog Debug (SentCommand MD_READY None) ] ->
  sound s0 address name st -> sound s0 address name st'.
Proof.
  intros Ea En Es Ef Eo (Ha & Hn & Hf & Ho & Hs & Hin & Hout & Hh & Hc & Hk).
  unfold sound. rewrite Ea, En, Es, Ef, Eo.
  split; [exact Ha|]. split; [exact Hn|]. split; [lia|].
  split.
  { rewrite opened_app, Ho. simpl.
    replace (S (fresh st) - s0)%nat with ((fresh st - s0) + 1)%nat by lia.
    rewrite seq_app. simpl. do 2 f_equal. lia. }
  split; [intros s [= <-]; lia|].
  split.
  { intros s Hr. rewrite sends_on_app. simpl.
    destruct (Nat.eqb_spec (fresh st) s) as [<- | Hne].
    - rewrite Hout by lia. exists []. split; [reflexivity | constructor].
    - destruct (Hin s) as (rest & -> & Hrest); [lia|].
      exists rest. rewrite app_nil_r. split; [reflexivity | exact Hrest]. }
  split.
  { intros s Hr. rewrite sends_on_app, Hout by lia. simpl.
    destruct (Nat.eqb_spec (fresh st) s) as [<- | _]; [lia | reflexivity]. }
  split.
  { apply handshakes_app; [exact Hh|]. simpl.
    split; [|exact I]. eexists. reflexivity. }
  rewrite !count_app, Hc, Hk. split; reflexivity.
Qed.

Lemma sound_reconnected s0 address name i st :
  sound s0 address name st -> sound s0 address name (reconnected i st).
Proof.
  intros Hst.
  assert (sound s0 address name
            (extended (closing (socket (wk st))
                       ++ [EvLog Debug (AttemptingConnection address)]) st))
    as Hst1.
  { destruct (socket (wk st)) as [s|]; simpl.
    - apply (sound_note _ _ _ (EvClose s)) in Hst; [|reflexivity].
      apply (sound_note _ _ _ (EvLog Debug (AttemptingConnection address)))
        in Hst; [|reflexivity].
      revert Hst. apply sound_same; try reflexivity.
      simpl. tidy. reflexivity.
    - apply sound_note; [reflexivity | exact Hst]. }
  destruct Hst as (Ha & Hn & _).
  revert Hst1. apply (sound_handshake _ _ _ (context (wk st))); try reflexivity.
  simpl. rewrite Ha, Hn. unfold handshake. tidy. reflexivity.
Qed.

Lemma sound_atom s0 address name st st' :
  atom st st' -> sound s0 address name st -> sound s0 address name st'.
Proof.
  intros Hat Hst. destruct Hat.
  - apply sound_note; assumption.
  - revert Hst. apply sound_same; reflexivity.
  - revert Hst. apply sound_same; reflexivity.
  - revert Hst. apply sound_same; reflexivity.
  - apply sound_send; try assumption.
    rewrite command_of_workerMessage. congruence.
  - apply (sound_send _ _ _ s beat) in Hst; [|assumption|discriminate].
    apply (sound_note _ _ _ (EvLog Debug (SentCommand MD_HEARTBEAT None)))
      in Hst; [|reflexivity].
    revert Hst. apply sound_same; try reflexivity.
    simpl. tidy. reflexivity.
  - apply sound_reconnected. exact Hst.
Qed.

Lemma sound_rtc s0 address name st st' :
  rtc atom st st' -> sound s0 address name st -> sound s0 address name st'.
Proof.
  induction 1 as [|st1 st2 st3 Hat _ IH]; [tauto|].
  intros Hst. apply IH. eapply sound_atom; eassumption.
Qed.

Lemma sound_newWorker c address name hb rc poll maxLiveness (action : A) i s0 :
  sound s0 address name
    (newWorker c address name hb rc poll maxLiveness action i s0).
Proof.
  unfold newWorker. rewrite reconnectToBroker_eq.
  apply sound_reconnected. unfold sound. simpl.
  rewrite Nat.sub_diag. simpl.
  repeat split; try reflexivity; try lia; try discriminate.
Qed.

(** C9: in any execution (a worker built by [newWorker], then any
    calls of [Receive] and [Shutdown], whatever the environment
    answers), every socket the worker opens is opened by a handshake:
    what follows [NewSocket] in the trace is linger, connect and the
    READY that carries the service name; the sockets are all
    different; on each of them that READY is the first message sent
    and the only READY; nothing is sent on another socket; and there
    are as many READY sent as sockets opened and as
    connections reported. *)
Theorem ready_once_per_socket c address name hb rc poll maxLiveness
    (action : A) i s0 calls :
  let st :=
    run calls (newWorker c address name hb rc poll maxLiveness action i s0) in
  handshakes address name (out st)
  /\ NoDup (opened (out st))
  /\ (forall s, In s (opened (out st)) ->
        exists rest,
          sends_on s (out st) = ready name :: rest
          /\ Forall (fun m => command_of m <> Some MD_READY) rest)
  /\ (forall s, ~ In s (opened (out st)) -> sends_on s (out st) = [])
  /\ count (sends MD_READY) (out st) = count is_open (out st)
  /\ count (sends MD_READY) (out st) = count is_connected (out st).
Proof.
  intros st.
  assert (sound s0 address name st) as Hst.
  { eapply sound_rtc; [apply run_walks | apply sound_newWorker]. }
  destruct Hst as (Ha & Hn & Hf & Ho & Hs & Hin & Hout & Hh & Hc & Hk).
  split; [exact Hh|].
  split; [rewrite Ho; apply NoDup_seq|].
  split.
  { intros s Hs'. rewrite Ho in Hs'. apply in_seq in Hs'. apply Hin. lia. }
  split.
  { intros s Hs'. apply Hout. intros Hr. apply Hs'. rewrite Ho.
    apply in_seq. lia. }
  split; [exact Hc | congruence].
Qed.

End Handshakes.

Section Errors.

Context {A : Type} `{WorkerAction A}.

Implicit Types (st : St A) (i : Input) (l : locals) (s : sock) (m : message).

(** *** The results of the sends are not looked at *)

Lemma blind_bind {X Y} (c : M A X) (k : X -> M A Y) :
  blind c -> (forall x, blind (k x)) -> blind (bind c k).
Proof.
  intros Hc Hk f i st. unfold bind. rewrite Hc.
  destruct (c i st) as [[x|p] st1]; [apply Hk | reflexivity].
Qed.

Lemma blind_discard {X Y} (c : M A X) (k : M A Y) :
  blind_but_value c -> blind k -> blind (bind c (fun _ => k)).
Proof.
  intros Hc Hk f i st. unfold bind. destruct (Hc f i st) as [Hst Hv].
  destruct (c (with_sends f i) st) as [[x|p] st1],
           (c i st) as [[x'|p'] st1']; simpl in *; subst; try tauto.
  apply Hk.
Qed.

Lemma blind_ret {X} (x : X) : blind (A := A) (ret x).
Proof. intros f i st. reflexivity. Qed.

Lemma blind_const {X} (c : M A X) :
  (forall i i' st, c i st = c i' st) -> blind c.
Proof. intros Hc f i st. apply Hc. Qed.

Lemma blind_ask {X} (g : Input -> X) :
  (forall f i, g (with_sends f i) = g i) -> blind (A := A) (ask g).
Proof. intros Hg f i st. unfold ask. rewrite Hg. reflexivity. Qed.

Lemma blind_reconnectToBroker : blind (A := A) reconnectToBroker.
Proof. intros f i st. rewrite !reconnectToBroker_eq. reflexivity. Qed.

Lemma blind_sendToBroker command name body :
  blind_but_value (A := A) (sendToBroker command name body).
Proof.
  intros f i st. destruct (socket (wk st)) as [s|] eqn:Hs.
  - rewrite !(sendToBroker_on s) by exact Hs. simpl. tauto.
  - rewrite !sendToBroker_nil by exact Hs. simpl. tauto.
Qed.

Ltac blinds_with known :=
  repeat first
    [ known
    | apply blind_ret
    | apply blind_reconnectToBroker
    | apply blind_discard; [apply blind_sendToBroker |]
    | apply blind_bind; [| intros ?]
    | match goal with
      | |- blind (if ?b then _ else _) => destruct b
      | |- blind (match ?x with _ => _ end) => destruct x
      | |- blind (let (_, _) := ?x in _) => destruct x
      end
    | apply blind_ask; reflexivity
    | apply blind_const; reflexivity ].

Lemma blind_heartbeat_due : blind (A := A) heartbeat_due.
Proof. unfold heartbeat_due. blinds_with fail. Qed.

Lemma blind_call_action payload : blind (A := A) (call_action payload).
Proof. unfold call_action. blinds_with fail. Qed.

Lemma blind_dispatch m : blind (A := A) (dispatch m).
Proof.
  unfold dispatch, logDebug. blinds_with ltac:(apply blind_call_action).
Qed.

Lemma blind_silent_poll : blind (A := A) silent_poll.
Proof. unfold silent_poll, logWarn. blinds_with fail. Qed.

Lemma blind_received m : blind (A := A) (received m).
Proof.
  unfold received, logError.
  blinds_with ltac:(first [apply blind_dispatch | apply blind_heartbeat_due]).
Qed.

Lemma blind_cleanup : blind (A := A) cleanup.
Proof. unfold cleanup, logDebug. blinds_with fail. Qed.

Lemma blind_poll_and_dispatch l : blind (A := A) (poll_and_dispatch l).
Proof.
  unfold poll_and_dispatch, the_socket, logError.
  blinds_with ltac:(first [ apply blind_received | apply blind_silent_poll
                          | apply blind_heartbeat_due ]).
Qed.

Lemma blind_iteration l : blind (A := A) (iteration l).
Proof.
  unfold iteration.
  blinds_with ltac:(first [apply blind_poll_and_dispatch | apply blind_cleanup]).
Qed.

(** *** How [Receive] returns *)

Lemma dispatch_request_nil m i st client :
  socket (wk st) = None ->
  command_of m = Some MD_REQUEST ->
  (5 <= length m)%nat ->
  m !! 3%nat = Some client ->
  exists st', dispatch m i st = (Panic NilDereference, st').
Proof.
  intros Hs Hc Hlen H3. unfold dispatch, call_action. unfold_M.
  rewrite (go_index_eq _ _ _ Hc). simpl.
  rewrite (go_slice_from_le _ _ Hlen). simpl.
  rewrite (go_index_eq _ _ _ H3). simpl.
  destruct (Call (workerAction (wk st)) (drop 5 m)) as [output a']. simpl.
  rewrite sendToBroker_nil by exact Hs. eexists. reflexivity.
Qed.

(** The switch returns only in the [MD_REQUEST] case, after the REPLY. *)
Lemma dispatch_returns m i st output st' :
  (3 <= length m)%nat ->
  dispatch m i st = (Ok (Some output), st') ->
  exists s client,
    out st' =
      out st
      ++ [ EvLog Debug (ReceivedRequest (drop 5 m));
           EvCall (drop 5 m);
           EvSend s (reply_to client output);
           EvLog Debug (SentCommand MD_REPLY (Some (EmptyString :: output))) ].
Proof.
  intros Hlen Hd.
  destruct (lookup_is_Some_lt m 2) as [c Hc]; [lia|].
  destruct (command_cases c) as [-> | [-> | [-> | (H1 & H2 & H3)]]].
  - destruct (le_lt_dec 5 (length m)) as [H5 | H5].
    + destruct (lookup_is_Some_lt m 3) as [client Hcl]; [lia|].
      destruct (socket (wk st)) as [s|] eqn:Hs.
      * rewrite (dispatch_request m i st s client) in Hd by assumption.
        injection Hd as <- <-. exists s, client. reflexivity.
      * destruct (dispatch_request_nil m i st client) as [st1 E];
          try assumption.
        rewrite E in Hd. discriminate Hd.
    + rewrite dispatch_request_short in Hd by assumption. discriminate Hd.
  - rewrite dispatch_disconnect in Hd by assumption. discriminate Hd.
  - rewrite dispatch_heartbeat in Hd by assumption. discriminate Hd.
  - rewrite (dispatch_unknown m i st c) in Hd by assumption. discriminate Hd.
Qed.

Lemma received_returns m i st output e st' :
  received m i st = (Ok (Return output e), st') ->
  e = None
  /\ exists s client,
       out st' =
         out st
         ++ [ EvLog Debug (ReceivedRequest (drop 5 m));
              EvCall (drop 5 m);
              EvSend s (reply_to client output);
              EvLog Debug (SentCommand MD_REPLY (Some (EmptyString :: output))) ].
Proof.
  intros Hr. destruct (le_lt_dec 3 (length m)) as [H3 | H3].
  - rewrite received_long in Hr by exact H3.
    destruct (dispatch m i _) as [[[o|]|p] st1] eqn:Hd.
    + injection Hr as <- <- <-. split; [reflexivity|].
      apply (dispatch_returns m i _ o st1 H3) in Hd. exact Hd.
    + destruct (heartbeat_due i st1) as [[[]|p] st2]; discriminate Hr.
    + discriminate Hr.
  - rewrite received_short in Hr by exact H3. discriminate Hr.
Qed.

Lemma poll_and_dispatch_returns l i st output e st' :
  poll_and_dispatch l i st = (Ok (Return output e), st') ->
  e = None
  /\ exists s s' client,
       out st' =
         out st
         ++ [ EvPoll s (pollInterval (wk st)); EvRecv s;
              EvLog Debug (ReceivedRequest (drop 5 (inbound i)));
              EvCall (drop 5 (inbound i));
              EvSend s' (reply_to client output);
              EvLog Debug (SentCommand MD_REPLY (Some (EmptyString :: output))) ].
Proof.
  intros Hr. destruct (socket (wk st)) as [s|] eqn:Hs.
  - destruct (polled i) as [err | [|n]] eqn:Hp.
    + rewrite (poll_and_dispatch_error l i st s err) in Hr by assumption.
      discriminate Hr.
    + rewrite (poll_and_dispatch_silent l i st s) in Hr by assumption.
      unfold bind, ret in Hr.
      destruct (silent_poll i _) as [[[]|p] st1]; [|discriminate Hr].
      destruct (heartbeat_due i st1) as [[[]|p] st2]; discriminate Hr.
    + rewrite (poll_and_dispatch_message l i st s n) in Hr by assumption.
      apply received_returns in Hr. destruct Hr as [-> (s' & client & Ho)].
      split; [reflexivity|]. exists s, s', client.
      rewrite Ho. simpl. tidy. reflexivity.
  - revert Hr. unfold poll_and_dispatch, the_socket. unfold_M. rewrite Hs.
    discriminate.
Qed.

Lemma iteration_returns l i st output e st' :
  iteration l i st = (Ok (Return output e), st') ->
  returned_well st st' output e.
Proof.
  intros Hr. unfold iteration in Hr. unfold bind at 1 in Hr.
  unfold gets at 1 in Hr.
  destruct (Chan.try_recv (shutdown (wk st))) as [[v|] c'].
  - revert Hr. unfold_M. rewrite cleanup_eq. simpl. intros [= <- <- <-].
    left. split; [reflexivity|].
    exists [], v, (socket (wk st)), (context (wk st)).
    simpl. tidy. reflexivity.
  - apply poll_and_dispatch_returns in Hr.
    destruct Hr as [-> (s & s' & client & Ho)].
    right. split; [reflexivity|].
    exists [ EvPoll s (pollInterval (wk st)); EvRecv s;
             EvLog Debug (ReceivedRequest (drop 5 (inbound i))) ],
           s', client, (drop 5 (inbound i)).
    rewrite Ho. reflexivity.
Qed.

Lemma walks_grows st st' : rtc atom st st' -> exists es, out st' = out st ++ es.
Proof.
  intros Hw. apply rtc_deadline_kept in Hw. destruct Hw as (es & Ho & _).
  exists es. exact Ho.
Qed.

Lemma returned_well_later st st1 st' m e :
  (exists es, out st1 = out st ++ es) ->
  returned_well st1 st' m e -> returned_well st st' m e.
Proof.
  intros [es Ho] [[He (before & v & so & c & Ho')]
                 | [He (before & s & client & payload & Ho')]].
  - left. split; [exact He|]. exists (es ++ before), v, so, c.
    rewrite Ho', Ho. tidy. reflexivity.
  - right. split; [exact He|]. exists (es ++ before), s, client, payload.
    rewrite Ho', Ho. tidy. reflexivity.
Qed.

Lemma Receive_loop_returns script l st m e st' :
  Receive_loop script l st = (Returned m e, st') ->
  returned_well st st' m e.
Proof.
  revert l st. induction script as [|t script IH]; intros l st Hr; simpl in Hr.
  - discriminate Hr.
  - destruct t as [i|].
    + pose proof (walks_iteration l i st) as Hw.
      destruct (iteration l i st) as [[[l'|m' e']|p] st1] eqn:Hit; simpl in Hw.
      * apply IH in Hr. revert Hr. apply returned_well_later.
        apply walks_grows. exact Hw.
      * injection Hr as <- <- <-. apply (iteration_returns l i). exact Hit.
      * discriminate Hr.
    + apply IH in Hr. revert Hr. apply returned_well_later.
      apply walks_grows. apply Shutdown_walks.
Qed.

Lemma blind_Receive_loop f script l st :
  Receive_loop (script_with_sends f script) l st = Receive_loop script l st.
Proof.
  revert l st. induction script as [|t script IH]; intros l st; simpl.
  - reflexivity.
  - destruct t as [i|]; [|apply IH].
    rewrite blind_iteration.
    destruct (iteration l i st) as [[[l'|m e]|p] st1]; try reflexivity.
    apply IH.
Qed.

(** C5, as amended: a poll failure is logged at the error level, the
    worker is left as it was and the loop goes on; a send failure is
    neither logged nor surfaced: whatever the sends answer, [Receive]
    does the same, logs the same and returns the same; and [Receive]
    returns an error only after a shutdown, and otherwise returns only
    the output of the handler with a nil error, once the REPLY has
    been sent. *)
Theorem failures_are_absorbed script l i st s e f :
  (unsignalled st -> socket (wk st) = Some s -> polled i = PollErr e ->
   iteration l i st =
     (Ok (Continue (mkLocals (msg l) (Some e))),
      extended [ EvPoll s (pollInterval (wk st));
                 EvLog Error (PollingFailed e) ] st))
  /\ iteration l (with_sends f i) st = iteration l i st
  /\ Receive (script_with_sends f script) st = Receive script st
  /\ (forall m err st',
        Receive script st = (Returned m err, st') ->
        returned_well st st' m err).
Proof.
  split.
  { intros Hu Hs Hp. rewrite iteration_unsignalled by exact Hu.
    apply poll_and_dispatch_error; assumption. }
  split; [apply blind_iteration|].
  split; [apply blind_Receive_loop|].
  intros m err st' Hr. apply (Receive_loop_returns script _ _ _ _ _ Hr).
Qed.

End Errors.

(** C5, as the spec states it, fails for a send: when the HEARTBEAT that
    is due cannot be sent, the iteration logs no line above the debug
    level, and its trace is the trace of a successful send. *)
Lemma failed_send_not_logged :
  ~ send_failure_logged (mkLocals [] None) failing worker0
  /\ added worker0 (snd (iteration (mkLocals [] None) failing worker0))
       = [ EvPoll 0%nat 500; EvSend 0%nat beat;
           EvLog Debug (SentCommand MD_HEARTBEAT None) ]
  /\ iteration (mkLocals [] None) failing worker0
       = iteration (mkLocals [] None) late worker0.
Proof.
  split; [|split; reflexivity].
  intros Hlogged.
  assert (In (EvSend 0%nat beat)
            (added worker0 (snd (iteration (mkLocals [] None) failing worker0))))
    as Hin by (right; left; reflexivity).
  specialize (Hlogged 0%nat beat _ Hin eq_refl).
  vm_compute in Hlogged. lia.
Qed.

Lemma failures_are_absorbed_witness :
  iteration (mkLocals [] None) broken worker0
    = (Ok (Continue (mkLocals [] (Some "interrupted system call"%string))),
       extended [ EvPoll 0%nat 500;
                  EvLog Error (PollingFailed "interrupted system call") ] worker0)
  /\ returned_well worker0
       (snd (Receive [Tick idle; Tick (delivering hello)] worker0))
       ["hello"%string] None.
Proof.
  destruct (failures_are_absorbed [Tick idle; Tick (delivering hello)]
              (mkLocals [] None) broken worker0 0%nat
              "interrupted system call"%string (fun _ => None))
    as (Hpoll & _ & _ & Hret).
  split.
  - apply Hpoll; [split|..]; reflexivity.
  - apply Hret. vm_compute. reflexivity.
Defined.

